(** * helpers/converter.py: notebook <-> percent script

    A shallow embedding of the two conversions of [helpers/converter.py]:
    [ipynb_to_percent_script] (cells to marked text) and
    [percent_script_to_ipynb] (marked text to cells), together with the
    Python string methods they call.  File access ([nbformat.read],
    [Path.write_text], ...) is outside the model: the encoder is taken from
    [nb.cells] to [script_text], the decoder from [text] to [cells]. *)

From Stdlib Require Import List NArith Bool Ascii String Lia.
Import ListNotations.

(** ** Python [str] *)

Module PyStr.

(** A Python string is a sequence of Unicode code points. *)
Definition char := N.
Definition str := list char.

(** ASCII literals of the source, written as Rocq strings. *)
Definition lit (s : string) : str := map N_of_ascii (list_ascii_of_string s).

(** The empty string. *)
Definition empty : str := [].

Definition LF : char := 10%N.
Definition CR : char := 13%N.

(** The line boundaries of [str.splitlines]:
    \n \v \f \r \x1c \x1d \x1e \x85 U+2028 U+2029. *)
Definition is_linebreak (c : char) : bool :=
  ((10 <=? c) && (c <=? 13) || (28 <=? c) && (c <=? 30) || (c =? 133)
   || (c =? 8232) || (c =? 8233))%N.

(** The whitespace of [str.isspace], which [strip], [lstrip] and [rstrip]
    remove when called without argument. *)
Definition is_space (c : char) : bool :=
  ((9 <=? c) && (c <=? 13) || (28 <=? c) && (c <=? 32) || (c =? 133)
   || (c =? 160) || (c =? 5760) || (8192 <=? c) && (c <=? 8202)
   || (c =? 8232) || (c =? 8233) || (c =? 8239) || (c =? 8287)
   || (c =? 12288))%N.

(** [s.startswith(p)] *)
Fixpoint startswith (p s : str) : bool :=
  match p, s with
  | [], _ => true
  | _ :: _, [] => false
  | a :: p', b :: s' => (a =? b)%N && startswith p' s'
  end.

(** [p in s] *)
Fixpoint contains (p s : str) : bool :=
  match s with
  | [] => startswith p []
  | _ :: s' => startswith p s || contains p s'
  end.

Fixpoint dropwhile (f : char -> bool) (s : str) : str :=
  match s with
  | [] => []
  | c :: s' => if f c then dropwhile f s' else s
  end.

(** [s.lstrip()], [s.rstrip()], [s.strip()] *)
Definition lstrip (s : str) : str := dropwhile is_space s.
Definition rstrip (s : str) : str := rev (dropwhile is_space (rev s)).
Definition strip (s : str) : str := lstrip (rstrip s).

(** [s] compared with the empty string *)
Definition is_empty (s : str) : bool :=
  match s with [] => true | _ :: _ => false end.

(** [sep.join(ls)] *)
Fixpoint join (sep : str) (ls : list str) : str :=
  match ls with
  | [] => []
  | [l] => l
  | l :: ls' => l ++ sep ++ join sep ls'
  end.

(** The text after a line boundary [c]: a line feed that follows a carriage
    return belongs to the same boundary. *)
Definition after_break (c : char) (rest : str) : str :=
  if (c =? CR)%N then
    match rest with
    | d :: rest' => if (d =? LF)%N then rest' else rest
    | [] => rest
    end
  else rest.

(** [split_open s]: [s] read from inside a line; the rest of that line and
    the lines after it.  A text that ends at a boundary has no further
    line. *)
Fixpoint split_open (s : str) : str * list str :=
  match s with
  | [] => ([], [])
  | c :: rest =>
      if is_linebreak c then
        let t := after_break c rest in
        ([], if is_empty t then [] else let (l, ls) := split_open t in l :: ls)
      else let (l, ls) := split_open rest in (c :: l, ls)
  end.

(** [s.splitlines()] *)
Definition splitlines (s : str) : list str :=
  match s with
  | [] => []
  | _ :: _ => let (l, ls) := split_open s in l :: ls
  end.

End PyStr.
Import PyStr.

(** ** The converter *)

Module Converter.

(** A notebook cell, as far as the converter reads it: [cell.cell_type] and
    [cell.source]. *)
Record Cell := new_cell { cell_type : str; source : str }.

Definition new_markdown_cell (source : str) : Cell :=
  new_cell (lit "markdown") source.
Definition new_code_cell (source : str) : Cell :=
  new_cell (lit "code") source.

(** [a == b] on strings *)
Fixpoint str_eqb (a b : str) : bool :=
  match a, b with
  | [], [] => true
  | x :: a', y :: b' => (x =? y)%N && str_eqb a' b'
  | _, _ => false
  end.

(** *** [ipynb_to_percent_script] *)

Section Encoder.

(** [repr] of a string, used by the diagnostic's [!r] conversion only. *)
Variable repr : str -> str.

(** The local [lines] and what [print] has written so far. *)
Record enc_state := mk_enc { lines : list str; printed : list str }.

(** Body of the inner loop over [cell.source.splitlines()]. *)
Definition markdown_line (acc : list str) (line : str) : list str :=
  if is_empty (strip line) then acc ++ [lit "#"]
  else acc ++ [lit "# " ++ line].

(** Body of the loop over [nb.cells]. *)
Definition encode_cell (st : enc_state) (cell : Cell) : enc_state :=
  if str_eqb (cell_type cell) (lit "markdown") then
    let l1 := lines st ++ [lit "# %% [markdown]"] in
    let l2 := fold_left markdown_line (splitlines (source cell)) l1 in
    mk_enc (l2 ++ [empty]) (printed st)
  else if str_eqb (cell_type cell) (lit "code") then
    let l1 := lines st ++ [lit "# %%"] in
    let l2 := if is_empty (source cell) then l1
              else l1 ++ splitlines (source cell) in
    mk_enc (l2 ++ [empty]) (printed st)
  else
    mk_enc (lines st)
           (printed st ++
            [lit "Skipping unsupported cell type: " ++ repr (cell_type cell)]).

Definition encode_cells (cells : list Cell) : enc_state :=
  fold_left encode_cell cells (mk_enc [] []).

(** [script_text], and the diagnostics printed on the way. *)
Definition ipynb_to_percent_script (cells : list Cell) : str * list str :=
  let st := encode_cells cells in
  (rstrip (join [LF] (lines st)) ++ [LF], printed st).

Definition script_text (cells : list Cell) : str :=
  fst (ipynb_to_percent_script cells).

End Encoder.

(** *** [percent_script_to_ipynb] *)

(** The values [current_kind] takes besides [None]. *)
Inductive kind := Code | Markdown.

(** [cells] and the two [nonlocal] variables of [flush_cell]. *)
Record dec_state := mk_dec {
  cells : list Cell;
  current_kind : option kind;
  current_lines : list str
}.

(** Body of the loop over [current_lines] in [flush_cell]. *)
Definition md_line (md_lines : list str) (l : str) : list str :=
  if startswith (lit "# ") l then md_lines ++ [skipn 2 l]
  else if startswith (lit "#") l then md_lines ++ [lstrip (skipn 1 l)]
  else md_lines ++ [l].

Definition flush_cell (st : dec_state) : dec_state :=
  match current_kind st with
  | None => st
  | Some Markdown =>
      let md_lines := fold_left md_line (current_lines st) [] in
      let source := rstrip (join [LF] md_lines) in
      mk_dec (cells st ++ [new_markdown_cell source]) None []
  | Some Code =>
      let source := rstrip (join [LF] (current_lines st)) in
      mk_dec (cells st ++ [new_code_cell source]) None []
  end.

(** Body of the loop over [lines]. *)
Definition scan_line (st : dec_state) (line : str) : dec_state :=
  if startswith (lit "# %%") line then
    let st' := flush_cell st in
    if contains (lit "[markdown]") line
    then mk_dec (cells st') (Some Markdown) []
    else mk_dec (cells st') (Some Code) []
  else mk_dec (cells st) (current_kind st) (current_lines st ++ [line]).

Definition scan (lines : list str) (st : dec_state) : dec_state :=
  fold_left scan_line lines st.

Definition decode_lines (lines : list str) : list Cell :=
  cells (flush_cell (scan lines (mk_dec [] None []))).

(** The [cells] handed to [new_notebook]. *)
Definition percent_script_to_ipynb (text : str) : list Cell :=
  decode_lines (splitlines text).

End Converter.
Import Converter.

(** * Vocabulary of the statements *)

(** ** Lines and whitespace *)

(** A line that is empty or all whitespace: its [strip()] is empty. *)
Definition blank (l : str) : bool := forallb is_space l.

Definition no_linebreak (l : str) : bool :=
  forallb (fun c => negb (is_linebreak c)) l.

(** A text whose only line boundary is the line feed. *)
Definition lf_only (s : str) : bool :=
  forallb (fun c => negb (is_linebreak c) || (c =? LF)%N) s.

(** Every line followed by a line feed. *)
Fixpoint unlines (ls : list str) : str :=
  match ls with
  | [] => []
  | l :: ls' => l ++ LF :: unlines ls'
  end.

(** The lines of [rstrip (unlines ls)]: trailing blank lines go, and the
    last line left loses its trailing whitespace. *)
Fixpoint rstrip_lines (ls : list str) : list str :=
  match ls with
  | [] => []
  | l :: ls' =>
      match rstrip_lines ls' with
      | [] => if blank l then [] else [rstrip l]
      | r => l :: r
      end
  end.

(** A line whose last character is not whitespace. *)
Fixpoint ends_nonspace (l : str) : bool :=
  match l with
  | [] => false
  | [c] => negb (is_space c)
  | _ :: l' => ends_nonspace l'
  end.

(** Lines without trailing blank lines, the last line without trailing
    whitespace. *)
Fixpoint clean_end (ls : list str) : bool :=
  match ls with
  | [] => true
  | [l] => ends_nonspace l
  | _ :: ls' => clean_end ls'
  end.

(** ** The encoder, cell by cell *)

(** The cell kinds the encoder writes. *)
Definition supported (c : Cell) : bool :=
  str_eqb (cell_type c) (lit "markdown") || str_eqb (cell_type c) (lit "code").

Definition cell_marker (c : Cell) : str :=
  if str_eqb (cell_type c) (lit "markdown")
  then lit "# %% [markdown]" else lit "# %%".

(** What the encoder's inner loop appends for one markdown source line. *)
Definition encoded_md_line (line : str) : str :=
  if blank line then lit "#" else lit "# " ++ line.

(** The lines below a cell's marker line, without the separator. *)
Definition content_lines (c : Cell) : list str :=
  if str_eqb (cell_type c) (lit "markdown")
  then map encoded_md_line (splitlines (source c))
  else splitlines (source c).

(** The lines one cell adds to [lines]. *)
Definition cell_lines (c : Cell) : list str :=
  if supported c then cell_marker c :: content_lines c ++ [empty] else [].

(** What one cell makes the encoder print. *)
Definition cell_diag (repr : str -> str) (c : Cell) : list str :=
  if supported c then []
  else [lit "Skipping unsupported cell type: " ++ repr (cell_type c)].

(** [repr] of a string that has no quote, backslash or unprintable
    character. *)
Definition repr_plain (s : str) : str := lit "'" ++ s ++ lit "'".

(** ** The decoder, line by line *)

(** The marker test of the decoder's loop. *)
Definition is_marker (l : str) : bool := startswith (lit "# %%") l.

(** The kind a marker line opens. *)
Definition marker_kind (l : str) : kind :=
  if contains (lit "[markdown]") l then Markdown else Code.

(** The [cell_type] of the cell made for an open kind. *)
Definition kind_name (k : kind) : str :=
  match k with Code => lit "code" | Markdown => lit "markdown" end.

(** What [flush_cell]'s loop appends for one buffered markdown line. *)
Definition decoded_md_line (l : str) : str :=
  if startswith (lit "# ") l then skipn 2 l
  else if startswith (lit "#") l then lstrip (skipn 1 l)
  else l.

(** The cell [flush_cell] appends for an open kind and its buffer. *)
Definition finish (k : kind) (ls : list str) : Cell :=
  match k with
  | Markdown => new_markdown_cell (rstrip (join [LF] (map decoded_md_line ls)))
  | Code => new_code_cell (rstrip (join [LF] ls))
  end.

(** The decoder run from a given state. *)
Definition decode_from (st : dec_state) (ls : list str) : list Cell :=
  cells (flush_cell (scan ls st)).

(** A list of lines that is empty or begins with a marker line. *)
Definition at_marker (ls : list str) : bool :=
  match ls with
  | [] => true
  | m :: _ => is_marker m
  end.

Definition no_marker (ls : list str) : bool :=
  forallb (fun l => negb (is_marker l)) ls.

(** A source that is empty or ends in a character that is not whitespace. *)
Definition stripped (s : str) : Prop :=
  s = [] \/ exists b c, s = b ++ [c] /\ is_space c = false.

(** ** Document to text to document *)

(** The cell the decoder makes of what the encoder wrote for [c]. *)
Definition reread (c : Cell) : Cell :=
  finish (marker_kind (cell_marker c)) (content_lines c ++ [empty]).

(** No line of the cell's source gives a content line that reads back as a
    marker line: no code line begins with the marker token, no markdown
    line with its two percent signs (the encoder supplies the rest). *)
Definition marker_safe (c : Cell) : bool :=
  forallb
    (fun l => negb (startswith (if str_eqb (cell_type c) (lit "markdown")
                                then lit "%%" else lit "# %%") l))
    (splitlines (source c)).

(** What decoding makes of an encoded markdown source line. *)
Definition norm_line (l : str) : str := if blank l then [] else l.

(** The source of a supported cell after encoding and decoding. *)
Definition reread_source (c : Cell) : str :=
  rstrip (unlines (if str_eqb (cell_type c) (lit "markdown")
                   then map norm_line (splitlines (source c))
                   else splitlines (source c))).

(** Every whitespace-only line of the text that has a non-blank line after
    it is empty. *)
Definition inner_blank_lines_empty (s : str) : bool :=
  forallb (fun l => implb (blank l) (is_empty l))
          (rstrip_lines (splitlines s)).

(** The sources that encoding and decoding give back up to trailing
    whitespace. *)
Definition plain_source (c : Cell) : bool :=
  lf_only (source c) &&
  (negb (str_eqb (cell_type c) (lit "markdown"))
   || inner_blank_lines_empty (source c)).

(** The (kind, source-with-trailing-whitespace-stripped) pairs. *)
Definition view (cs : list Cell) : list (str * str) :=
  map (fun c => (cell_type c, rstrip (source c))) cs.

(** ** Text to document to text *)

(** The lines before the first marker line, and the blocks after them: each
    a marker line with the lines up to the next marker line. *)
Fixpoint blocks_of (ls : list str) : list str * list (str * list str) :=
  match ls with
  | [] => ([], [])
  | l :: ls' =>
      let (pre, bs) := blocks_of ls' in
      if is_marker l then ([], (l, pre) :: bs) else (l :: pre, bs)
  end.

(** The lines of a block. *)
Definition block_lines (b : str * list str) : list str := fst b :: snd b.

(** The cell the decoder makes of a block. *)
Definition block_cell (b : str * list str) : Cell :=
  finish (marker_kind (fst b)) (snd b).

(** The lines of a block without the one empty line that has to close it. *)
Fixpoint closed_body (ls : list str) : option (list str) :=
  match ls with
  | [] => None
  | [l] => if is_empty l then Some [] else None
  | l :: ls' => option_map (cons l) (closed_body ls')
  end.

(** A markdown content line as the format has it: the bare comment prefix,
    or the prefix, a space and a text that is not blank. *)
Definition md_content_line (l : str) : bool :=
  str_eqb l (lit "#")
  || startswith (lit "# ") l && negb (blank (skipn 2 l)).

(** A block in the format's own layout: an exact marker line, content that
    ends in a character that is not whitespace, one empty line; markdown
    content made of markdown content lines, the last of them with text. *)
Definition well_formed_block (b : str * list str) : bool :=
  match closed_body (snd b) with
  | None => false
  | Some body =>
      clean_end body &&
      (str_eqb (fst b) (lit "# %%")
       || str_eqb (fst b) (lit "# %% [markdown]")
          && forallb md_content_line body
          && negb (str_eqb (last body (empty)) (lit "#")))
  end.

(** The lines of a text up to trailing whitespace, with the empty line that
    closes the last block. *)
Definition normal_lines (text : str) : list str :=
  rstrip_lines (splitlines text) ++ [empty].

(** A marked text in the format's own layout, up to trailing whitespace:
    line feeds only, a marker line first, well-formed blocks. *)
Definition well_formed (text : str) : bool :=
  lf_only text &&
  (let (pre, bs) := blocks_of (normal_lines text) in
   match pre with [] => forallb well_formed_block bs | _ :: _ => false end).

(** Every line that holds the marker token begins with it. *)
Definition markers_at_line_start (text : str) : bool :=
  forallb (fun l => implb (contains (lit "# %%") l) (is_marker l))
          (splitlines text).

(** Every line below a markdown marker line is empty or begins with the
    comment prefix. *)
Definition md_lines_prefixed (text : str) : bool :=
  forallb (fun b => implb (contains (lit "[markdown]") (fst b))
                      (forallb (fun l => is_empty l || startswith (lit "#") l)
                               (snd b)))
          (snd (blocks_of (splitlines text))).

(** ** Further vocabulary *)

(** The diagnostic the encoder prints for a cell it skips. *)
Definition skip_message (repr : str -> str) (c : Cell) : str :=
  lit "Skipping unsupported cell type: " ++ repr (cell_type c).

(** The [cell_type] of the cell a marker line opens. *)
Definition marker_cell_type (m : str) : str :=
  if contains (lit "[markdown]") m then lit "markdown" else lit "code".

(** A text that is empty or ends at a line boundary. *)
Definition ends_with_break (s : str) : bool :=
  match rev s with
  | [] => true
  | c :: _ => is_linebreak c
  end.

(** Every line below a markdown marker line is empty or a markdown content
    line of the format. *)
Definition md_blocks_proper (text : str) : bool :=
  forallb (fun b => implb (contains (lit "[markdown]") (fst b))
                      (forallb (fun l => is_empty l || md_content_line l)
                               (snd b)))
          (snd (blocks_of (splitlines text))).

(** A cell that encoding and decoding give back as it is. *)
Definition settled (c : Cell) : Prop :=
  supported c = true /\ marker_safe c = true /\ reread c = c.

(** The content lines of the supported cells that read back as marker
    lines. *)
Definition stray_markers (doc : list Cell) : list str :=
  filter is_marker (List.concat (map content_lines (filter supported doc))).

(** ** Sample inputs *)

(** A Document with an unsupported cell, other line boundaries, trailing
    whitespace and a whitespace-only markdown line. *)
Definition untidy_document : list Cell :=
  [ new_markdown_cell (lit "Intro  " ++ [LF] ++ lit "   " ++ [LF] ++ lit "more");
    new_cell (lit "raw") (lit "# %% not a cell");
    new_code_cell (lit "x = 1  " ++ [CR; LF] ++ lit "y = 2" ++ [LF; LF]) ].

(** A script with lines before the first marker, a titled marker line, no
    separator lines and a trailing bare prefix. *)
Definition untidy_script : str :=
  lit "import os" ++ [LF]
  ++ lit "# %% [markdown] notes" ++ [LF] ++ lit "# Title" ++ [LF] ++ lit "#"
  ++ [LF]
  ++ lit "# %% setup" ++ [CR; LF] ++ lit "x = 1   " ++ [LF] ++ lit "#%% y"
  ++ [LF].

(** A code cell whose second line is a comment that begins with the marker
    token. *)
Definition cell_with_marker_comment : Cell :=
  new_code_cell (lit "x = 1" ++ [LF] ++ lit "# %% next" ++ [LF] ++ lit "y = 2").

Definition sample_document : list Cell :=
  [ new_markdown_cell (lit "# Title" ++ [LF; LF] ++ lit "Some text.  " ++ [LF]);
    new_code_cell (lit "x = 1" ++ [LF] ++ lit "print(x)");
    new_code_cell (empty) ].

(** A marker line that is followed by content and carries the qualifier
    further on. *)
Definition late_qualifier_line : str := lit "# %% see [markdown]".

Definition raw_between_code : list Cell :=
  [new_code_cell (lit "a = 1"); new_cell (lit "raw") (lit "zz");
   new_code_cell (lit "b = 2")].

(** A code cell whose marker line carries a title. *)
Definition titled_script : str :=
  lit "# %% load data" ++ [LF] ++ lit "x = 1" ++ [LF].

Definition sample_script : str :=
  lit "# %% [markdown]" ++ [LF] ++ lit "# Title" ++ [LF] ++ lit "#" ++ [LF]
  ++ lit "# Some  text." ++ [LF; LF]
  ++ lit "# %%" ++ [LF] ++ [LF]
  ++ lit "# %%" ++ [LF] ++ lit "x = 1" ++ [LF] ++ lit "    print(x)"
  ++ lit "  " ++ [LF; LF; LF].

(** * The model on small inputs *)

Example splitlines_blank_line :
  splitlines (lit "a" ++ [LF; LF] ++ lit "b") = [lit "a"; empty; lit "b"].
Proof. reflexivity. Qed.

Example splitlines_final_break :
  splitlines (lit "a" ++ [LF]) = [lit "a"] /\ splitlines [LF] = [empty]
  /\ splitlines (empty) = [].
Proof. repeat split. Qed.

Example splitlines_crlf :
  splitlines (lit "a" ++ [CR; LF] ++ lit "b" ++ [CR] ++ lit "c" ++ [LF; CR])
  = [lit "a"; lit "b"; lit "c"; empty].
Proof. reflexivity. Qed.

Example splitlines_other_boundaries :
  splitlines (lit "a" ++ [11; 8232]%N ++ lit "b" ++ [31]%N ++ lit "c")
  = [lit "a"; empty; lit "b" ++ [31]%N ++ lit "c"].
Proof. reflexivity. Qed.

Example strip_both_ends :
  rstrip (lit "  a b " ++ [9; 10; 160]%N) = lit "  a b"
  /\ lstrip (lit "  a b ") = lit "a b "
  /\ strip ([12288]%N ++ lit " a b ") = lit "a b".
Proof. repeat split. Qed.

Example join_lines :
  join [LF] [lit "a"; empty; lit "b"] = lit "a" ++ [LF; LF] ++ lit "b"
  /\ join [LF] [lit "a"] = lit "a" /\ join [LF] [] = empty.
Proof. repeat split. Qed.

Example encode_sample_document :
  ipynb_to_percent_script repr_plain sample_document
  = (lit "# %% [markdown]" ++ [LF] ++ lit "# # Title" ++ [LF] ++ lit "#"
     ++ [LF] ++ lit "# Some text.  " ++ [LF; LF]
     ++ lit "# %%" ++ [LF] ++ lit "x = 1" ++ [LF] ++ lit "print(x)" ++ [LF; LF]
     ++ lit "# %%" ++ [LF],
     []).
Proof. reflexivity. Qed.

Example decode_sample_script :
  percent_script_to_ipynb sample_script
  = [ new_markdown_cell (lit "Title" ++ [LF; LF] ++ lit "Some  text.");
      new_code_cell (empty);
      new_code_cell (lit "x = 1" ++ [LF] ++ lit "    print(x)") ].
Proof. reflexivity. Qed.

(** What the round trips lose, case by case. *)

Example roundtrip_other_boundary :
  percent_script_to_ipynb
    (script_text repr_plain [new_code_cell (lit "a" ++ [CR] ++ lit "b")])
  = [new_code_cell (lit "a" ++ [LF] ++ lit "b")].
Proof. reflexivity. Qed.

Example roundtrip_blank_markdown_line :
  percent_script_to_ipynb
    (script_text repr_plain
       [new_markdown_cell (lit "a" ++ [LF] ++ lit "  " ++ [LF] ++ lit "b")])
  = [new_markdown_cell (lit "a" ++ [LF; LF] ++ lit "b")].
Proof. reflexivity. Qed.

Example roundtrip_markdown_percent_line :
  percent_script_to_ipynb
    (script_text repr_plain [new_markdown_cell (lit "%% x" ++ [LF] ++ lit "y")])
  = [new_markdown_cell (empty); new_code_cell (lit "# y")].
Proof. reflexivity. Qed.

Example reencode_leading_lines :
  script_text repr_plain
    (percent_script_to_ipynb
       (lit "import os" ++ [LF] ++ lit "# %%" ++ [LF] ++ lit "y" ++ [LF]))
  = lit "# %%" ++ [LF] ++ lit "y" ++ [LF].
Proof. reflexivity. Qed.

Example reencode_missing_separator :
  script_text repr_plain
    (percent_script_to_ipynb
       (lit "# %%" ++ [LF] ++ lit "x" ++ [LF] ++ lit "# %%" ++ [LF] ++ lit "y"
        ++ [LF]))
  = lit "# %%" ++ [LF] ++ lit "x" ++ [LF; LF] ++ lit "# %%" ++ [LF] ++ lit "y"
    ++ [LF].
Proof. reflexivity. Qed.

Example reencode_unprefixed_markdown_line :
  script_text repr_plain
    (percent_script_to_ipynb
       (lit "# %% [markdown]" ++ [LF] ++ lit "#a" ++ [LF] ++ lit "b" ++ [LF]))
  = lit "# %% [markdown]" ++ [LF] ++ lit "# a" ++ [LF] ++ lit "# b" ++ [LF].
Proof. reflexivity. Qed.

Example reencode_bare_prefix_last :
  script_text repr_plain
    (percent_script_to_ipynb
       (lit "# %% [markdown]" ++ [LF] ++ lit "# a" ++ [LF] ++ lit "#" ++ [LF; LF]
        ++ lit "# %%" ++ [LF]))
  = lit "# %% [markdown]" ++ [LF] ++ lit "# a" ++ [LF; LF] ++ lit "# %%" ++ [LF].
Proof. reflexivity. Qed.

(** * Python string methods *)

Section StrLemmas.

Lemma is_linebreak_space c : is_linebreak c = true -> is_space c = true.
Proof.
  unfold is_linebreak, is_space. intros H.
  repeat rewrite orb_true_iff in *. repeat rewrite andb_true_iff in *.
  repeat rewrite N.leb_le in *. repeat rewrite N.eqb_eq in *. lia.
Qed.

Lemma dropwhile_app_all f a b :
  forallb f a = true -> dropwhile f (a ++ b) = dropwhile f b.
Proof.
  induction a as [|c a IH]; simpl; [reflexivity|].
  intros H. apply andb_true_iff in H as [Hc Ha]. now rewrite Hc, IH.
Qed.

Lemma dropwhile_app_some f a b :
  dropwhile f a <> [] -> dropwhile f (a ++ b) = dropwhile f a ++ b.
Proof.
  induction a as [|c a IH]; simpl; [congruence|].
  destruct (f c); [exact IH | reflexivity].
Qed.

Lemma dropwhile_nil f a : dropwhile f a = [] <-> forallb f a = true.
Proof.
  induction a as [|c a IH]; simpl; [tauto|].
  destruct (f c); simpl; [exact IH | split; discriminate].
Qed.

Lemma dropwhile_head f a c r : dropwhile f a = c :: r -> f c = false.
Proof.
  induction a as [|d a IH]; simpl; [discriminate|].
  destruct (f d) eqn:E; [exact IH | congruence].
Qed.

Lemma dropwhile_split f a :
  exists w, a = w ++ dropwhile f a /\ forallb f w = true.
Proof.
  induction a as [|c a [w [E W]]]; simpl; [now exists []|].
  destruct (f c) eqn:Hc; [|now exists []].
  exists (c :: w). simpl. rewrite Hc, W. split; [now f_equal | reflexivity].
Qed.

Lemma forallb_map_comp (A B : Type) (f : B -> bool) (g : A -> B) l :
  forallb f (map g l) = forallb (fun x => f (g x)) l.
Proof.
  induction l as [|x l IH]; [reflexivity|]. cbn. now rewrite IH.
Qed.

Lemma forallb_pointwise (A : Type) (f g : A -> bool) l :
  (forall x, f x = g x) -> forallb f l = forallb g l.
Proof.
  intros E. induction l as [|x l IH]; [reflexivity|]. cbn.
  now rewrite E, IH.
Qed.

Lemma forallb_rev (f : char -> bool) a : forallb f (rev a) = forallb f a.
Proof.
  induction a as [|c a IH]; simpl; [reflexivity|].
  rewrite forallb_app, IH. simpl. rewrite andb_true_r. apply andb_comm.
Qed.

Lemma rstrip_nil s : rstrip s = [] <-> blank s = true.
Proof.
  unfold rstrip, blank. rewrite <- (forallb_rev is_space s), <- dropwhile_nil.
  split; intros H; [|now rewrite H].
  apply (f_equal (@rev char)) in H. now rewrite rev_involutive in H.
Qed.

Lemma rstrip_app_blank s t : blank t = true -> rstrip (s ++ t) = rstrip s.
Proof.
  intros H. unfold rstrip. rewrite rev_app_distr, dropwhile_app_all; auto.
  now rewrite forallb_rev.
Qed.

Lemma rstrip_app s t : rstrip t <> [] -> rstrip (s ++ t) = s ++ rstrip t.
Proof.
  intros H. unfold rstrip in *. rewrite rev_app_distr, dropwhile_app_some.
  - now rewrite rev_app_distr, rev_involutive.
  - intros E. apply H. now rewrite E.
Qed.

Lemma rstrip_split s : exists w, s = rstrip s ++ w /\ blank w = true.
Proof.
  destruct (dropwhile_split is_space (rev s)) as [w [E W]].
  exists (rev w). unfold rstrip, blank. rewrite forallb_rev. split; [|exact W].
  rewrite <- rev_app_distr, <- E. now rewrite rev_involutive.
Qed.

Lemma rstrip_last s :
  rstrip s = [] \/ exists b c, rstrip s = b ++ [c] /\ is_space c = false.
Proof.
  unfold rstrip. destruct (dropwhile is_space (rev s)) as [|c r] eqn:E.
  - now left.
  - right. exists (rev r), c. split; [reflexivity|].
    eapply dropwhile_head; eauto.
Qed.

Lemma rstrip_snoc s c : is_space c = false -> rstrip (s ++ [c]) = s ++ [c].
Proof.
  intros H. unfold rstrip. rewrite rev_app_distr. simpl. rewrite H. simpl.
  now rewrite rev_involutive.
Qed.

Lemma rstrip_idem s : rstrip (rstrip s) = rstrip s.
Proof.
  destruct (rstrip_last s) as [E | [b [c [E Hc]]]]; rewrite E.
  - reflexivity.
  - now apply rstrip_snoc.
Qed.

Lemma startswith_cons (a b : char) (p s : str) :
  startswith (a :: p) (b :: s) = (a =? b)%N && startswith p s.
Proof. reflexivity. Qed.

Lemma blank_cons (c : char) (r : str) :
  blank (c :: r) = is_space c && blank r.
Proof. reflexivity. Qed.

Lemma blank_app a b : blank (a ++ b) = blank a && blank b.
Proof. apply forallb_app. Qed.

Lemma rstrip_fixed s c : is_space c = false -> rstrip (s ++ [c]) <> [].
Proof.
  intros H. rewrite rstrip_snoc by exact H. now destruct s.
Qed.

(** [splitlines] *)

Lemma splitlines_cons c s :
  splitlines (c :: s) = fst (split_open (c :: s)) :: snd (split_open (c :: s)).
Proof. unfold splitlines. now destruct (split_open (c :: s)). Qed.

Lemma split_open_tail t :
  (if is_empty t then [] else let (l, ls) := split_open t in l :: ls)
  = splitlines t.
Proof. now destruct t. Qed.

Lemma split_open_line l t :
  no_linebreak l = true -> split_open (l ++ LF :: t) = (l, splitlines t).
Proof.
  induction l as [|c l IH]; intros H.
  - cbn [app split_open]. change (is_linebreak LF) with true. cbv iota.
    change (after_break LF t) with t. now rewrite split_open_tail.
  - cbn in H. apply andb_true_iff in H as [Hc Hl].
    cbn [app split_open]. apply negb_true_iff in Hc. rewrite Hc.
    now rewrite (IH Hl).
Qed.

Lemma splitlines_line l t :
  no_linebreak l = true -> splitlines (l ++ LF :: t) = l :: splitlines t.
Proof.
  intros H. pose proof (split_open_line l t H) as E.
  destruct l; cbn [app] in *; now rewrite splitlines_cons, E.
Qed.

Lemma splitlines_unlines ls :
  forallb no_linebreak ls = true -> splitlines (unlines ls) = ls.
Proof.
  induction ls as [|l ls IH]; intros H; [reflexivity|].
  cbn in H. apply andb_true_iff in H as [Hl Hls].
  cbn [unlines]. now rewrite splitlines_line, IH.
Qed.

Lemma after_break_length c rest : List.length (after_break c rest) <= List.length rest.
Proof.
  unfold after_break. destruct (c =? CR)%N; [|lia].
  destruct rest as [|d r]; [lia|]. destruct (d =? LF)%N; simpl; lia.
Qed.

Lemma split_open_no_linebreak n : forall s, List.length s <= n ->
  no_linebreak (fst (split_open s)) = true /\
  forallb no_linebreak (snd (split_open s)) = true.
Proof.
  induction n as [|n IH]; intros [|c rest] Hn; simpl in Hn; try lia;
    try (now split).
  cbn [split_open]. destruct (is_linebreak c) eqn:Hc.
  - cbn [fst snd]. split; [reflexivity|].
    pose proof (after_break_length c rest) as Hl.
    destruct (after_break c rest) as [|d t] eqn:Et; [reflexivity|].
    cbn [is_empty]. destruct (IH (d :: t)) as [H1 H2]; [lia|].
    destruct (split_open (d :: t)) as [l ls]. cbn [fst snd] in *.
    cbn [forallb]. now rewrite H1, H2.
  - destruct (IH rest) as [H1 H2]; [lia|].
    destruct (split_open rest) as [l ls]. cbn [fst snd] in *.
    split; [|exact H2]. unfold no_linebreak in *. cbn [forallb].
    now rewrite Hc, H1.
Qed.

Lemma splitlines_no_linebreak s : forallb no_linebreak (splitlines s) = true.
Proof.
  destruct s as [|c s]; [reflexivity|]. rewrite splitlines_cons.
  destruct (split_open_no_linebreak (List.length (c :: s)) (c :: s)) as [H1 H2];
    [lia|].
  cbn [forallb]. now rewrite H1, H2.
Qed.

Lemma lf_only_split_open s : lf_only s = true ->
  let (l, ls) := split_open s in
  l ++ LF :: unlines ls = s ++ [LF] \/ (s <> [] /\ l ++ LF :: unlines ls = s).
Proof.
  induction s as [|c rest IH]; intros H; [now left|].
  cbn in H. apply andb_true_iff in H as [Hc Hr]. specialize (IH Hr).
  cbn [split_open]. destruct (is_linebreak c) eqn:Lc.
  - cbn in Hc. apply N.eqb_eq in Hc. subst c.
    change (after_break LF rest) with rest. rewrite split_open_tail.
    destruct rest as [|d t]; [right; now split|].
    rewrite splitlines_cons. destruct (split_open (d :: t)) as [l ls].
    cbn [fst snd unlines app]. destruct IH as [E | [_ E]]; rewrite E.
    + now left.
    + right. now split.
  - destruct (split_open rest) as [l ls]. cbn [app].
    destruct IH as [E | [_ E]]; rewrite E.
    + now left.
    + right. now split.
Qed.

Lemma lf_only_unlines_splitlines s : lf_only s = true ->
  unlines (splitlines s) = s \/ unlines (splitlines s) = s ++ [LF].
Proof.
  intros H. destruct s as [|c s]; [now left|].
  rewrite splitlines_cons. pose proof (lf_only_split_open _ H) as E.
  destruct (split_open (c :: s)) as [l ls]. cbn [fst snd unlines].
  destruct E as [E | [_ E]]; auto.
Qed.

Lemma blank_LF : blank [LF] = true.
Proof. reflexivity. Qed.

Lemma rstrip_unlines_splitlines s : lf_only s = true ->
  rstrip (unlines (splitlines s)) = rstrip s.
Proof.
  intros H. destruct (lf_only_unlines_splitlines _ H) as [E|E]; rewrite E.
  - reflexivity.
  - apply rstrip_app_blank, blank_LF.
Qed.

(** [join], [unlines] and [rstrip] *)

Lemma join_cons sep l l' ls :
  join sep (l :: l' :: ls) = l ++ sep ++ join sep (l' :: ls).
Proof. reflexivity. Qed.

Lemma join_unlines ls : ls <> [] -> join [LF] ls ++ [LF] = unlines ls.
Proof.
  induction ls as [|l ls IH]; [congruence|]. intros _.
  destruct ls as [|l' ls].
  - reflexivity.
  - rewrite join_cons. cbn [unlines] in *. rewrite <- IH by discriminate.
    now rewrite <- !app_assoc.
Qed.

Lemma rstrip_join ls : rstrip (join [LF] ls) = rstrip (unlines ls).
Proof.
  destruct ls as [|l ls]; [reflexivity|].
  rewrite <- (join_unlines (l :: ls)) by discriminate.
  symmetry. apply rstrip_app_blank, blank_LF.
Qed.

Lemma unlines_app a b : unlines (a ++ b) = unlines a ++ unlines b.
Proof.
  induction a as [|l a IH]; [reflexivity|].
  cbn [app unlines]. now rewrite IH, <- app_assoc.
Qed.

Lemma rstrip_lines_cons l ls :
  rstrip_lines (l :: ls) =
  match rstrip_lines ls with
  | [] => if blank l then [] else [rstrip l]
  | r => l :: r
  end.
Proof. reflexivity. Qed.

Lemma rstrip_lines_nil ls : rstrip_lines ls = [] <-> forallb blank ls = true.
Proof.
  induction ls as [|l ls IH]; [simpl; tauto|].
  cbn [rstrip_lines forallb]. destruct (rstrip_lines ls) as [|r rs].
  - destruct (blank l); simpl; [tauto | split; discriminate].
  - split; [discriminate|]. intros H. apply andb_true_iff in H as [_ H].
    apply IH in H. discriminate.
Qed.

Lemma blank_unlines ls : blank (unlines ls) = forallb blank ls.
Proof.
  induction ls as [|l ls IH]; [reflexivity|].
  cbn [unlines forallb].
  change (l ++ LF :: unlines ls) with (l ++ ([LF] ++ unlines ls)).
  now rewrite !blank_app, IH.
Qed.

Lemma join_nonnil (l : str) ls : ls <> [] -> l ++ LF :: join [LF] ls <> [].
Proof. now destruct l. Qed.

Lemma rstrip_unlines ls : rstrip (unlines ls) = join [LF] (rstrip_lines ls).
Proof.
  induction ls as [|l ls IH]; [reflexivity|].
  cbn [unlines rstrip_lines].
  destruct (rstrip_lines ls) as [|r rs] eqn:E.
  - apply rstrip_lines_nil in E.
    change (l ++ LF :: unlines ls) with (l ++ ([LF] ++ unlines ls)).
    rewrite rstrip_app_blank.
    + destruct (blank l) eqn:B; [now apply rstrip_nil | reflexivity].
    + rewrite blank_app, blank_unlines. exact E.
  - change (l ++ LF :: unlines ls) with (l ++ ([LF] ++ unlines ls)).
    rewrite app_assoc, rstrip_app, IH.
    + now rewrite <- app_assoc.
    + intros B. apply rstrip_nil in B. rewrite blank_unlines in B.
      apply rstrip_lines_nil in B. congruence.
Qed.

Lemma rstrip_lines_app a b :
  rstrip_lines b <> [] -> rstrip_lines (a ++ b) = a ++ rstrip_lines b.
Proof.
  intros H. induction a as [|l a IH]; [reflexivity|].
  cbn [app rstrip_lines]. rewrite IH.
  destruct (a ++ rstrip_lines b) eqn:E; [|reflexivity].
  apply app_eq_nil in E. tauto.
Qed.

Lemma rstrip_lines_app_blank a b :
  forallb blank b = true -> rstrip_lines (a ++ b) = rstrip_lines a.
Proof.
  intros H. apply rstrip_lines_nil in H.
  induction a as [|l a IH]; [exact H|].
  cbn [app rstrip_lines]. now rewrite IH.
Qed.

End StrLemmas.

(** * The encoder as a map over cells *)

Section EncoderLemmas.

Variable repr : str -> str.

Lemma str_eqb_eq a b : str_eqb a b = true <-> a = b.
Proof.
  revert b. induction a as [|x a IH]; intros [|y b]; simpl;
    try (split; (congruence || discriminate)).
  rewrite andb_true_iff, N.eqb_eq, IH. split; [intros [-> ->]|intros [= -> ->]]; auto.
Qed.

Lemma lstrip_nil s : lstrip s = [] <-> blank s = true.
Proof. apply dropwhile_nil. Qed.

Lemma strip_empty l : is_empty (strip l) = blank l.
Proof.
  unfold strip. destruct (blank l) eqn:B.
  - apply rstrip_nil in B. now rewrite B.
  - destruct (lstrip (rstrip l)) eqn:E; [|reflexivity].
    apply lstrip_nil, rstrip_nil in E. rewrite rstrip_idem in E.
    apply rstrip_nil in E. congruence.
Qed.

Lemma fold_markdown_line ls acc :
  fold_left markdown_line ls acc = acc ++ map encoded_md_line ls.
Proof.
  revert acc. induction ls as [|l ls IH]; intros acc; simpl.
  - now rewrite app_nil_r.
  - rewrite IH. unfold markdown_line, encoded_md_line. rewrite strip_empty.
    destruct (blank l); now rewrite <- app_assoc.
Qed.

Lemma splitlines_guard (s : str) (l1 : list str) :
  (if is_empty s then l1 else l1 ++ splitlines s) = l1 ++ splitlines s.
Proof. destruct s; [now rewrite app_nil_r | reflexivity]. Qed.

Lemma markdown_not_code c :
  str_eqb (cell_type c) (lit "markdown") = true ->
  str_eqb (cell_type c) (lit "code") = false.
Proof. intros H. apply str_eqb_eq in H. now rewrite H. Qed.

Lemma encode_cell_eq st c :
  encode_cell repr st c =
  mk_enc (lines st ++ cell_lines c) (printed st ++ cell_diag repr c).
Proof.
  unfold encode_cell, cell_lines, cell_diag, supported, cell_marker,
    content_lines.
  destruct (str_eqb (cell_type c) (lit "markdown")) eqn:M.
  - cbn [orb]. rewrite fold_markdown_line, app_nil_r.
    now rewrite <- !app_assoc.
  - cbn [orb]. destruct (str_eqb (cell_type c) (lit "code")) eqn:K.
    + rewrite splitlines_guard, app_nil_r. now rewrite <- !app_assoc.
    + now rewrite app_nil_r.
Qed.

Lemma fold_encode_cell cs st :
  fold_left (encode_cell repr) cs st =
  mk_enc (lines st ++ List.concat (map cell_lines cs))
         (printed st ++ List.concat (map (cell_diag repr) cs)).
Proof.
  revert st. induction cs as [|c cs IH]; intros st; simpl.
  - rewrite !app_nil_r. now destruct st.
  - rewrite IH, encode_cell_eq. cbn [lines printed].
    now rewrite <- !app_assoc.
Qed.

Lemma encode_cells_eq cs :
  encode_cells repr cs =
  mk_enc (List.concat (map cell_lines cs)) (List.concat (map (cell_diag repr) cs)).
Proof. unfold encode_cells. now rewrite fold_encode_cell. Qed.

Lemma script_text_eq cs :
  script_text repr cs = rstrip (join [LF] (List.concat (map cell_lines cs))) ++ [LF].
Proof.
  unfold script_text, ipynb_to_percent_script. now rewrite encode_cells_eq.
Qed.

End EncoderLemmas.

(** * The decoder, block by block *)

Section DecoderLemmas.

Lemma fold_md_line ls acc :
  fold_left md_line ls acc = acc ++ map decoded_md_line ls.
Proof.
  revert acc. induction ls as [|l ls IH]; intros acc; simpl.
  - now rewrite app_nil_r.
  - rewrite IH. unfold md_line, decoded_md_line.
    destruct (startswith (lit "# ") l); [now rewrite <- app_assoc|].
    destruct (startswith (lit "#") l); now rewrite <- app_assoc.
Qed.

Lemma flush_cell_eq st :
  flush_cell st =
  match current_kind st with
  | None => st
  | Some k => mk_dec (cells st ++ [finish k (current_lines st)]) None []
  end.
Proof.
  unfold flush_cell, finish. destruct (current_kind st) as [[|]|]; auto.
  now rewrite fold_md_line.
Qed.

Lemma scan_line_marker st m : is_marker m = true ->
  scan_line st m = mk_dec (cells (flush_cell st)) (Some (marker_kind m)) [].
Proof.
  unfold scan_line, is_marker, marker_kind. intros ->.
  now destruct (contains (lit "[markdown]") m).
Qed.

Lemma scan_line_content st l : is_marker l = false ->
  scan_line st l =
  mk_dec (cells st) (current_kind st) (current_lines st ++ [l]).
Proof. unfold scan_line, is_marker. now intros ->. Qed.

Lemma scan_app a b st : scan (a ++ b) st = scan b (scan a st).
Proof. apply fold_left_app. Qed.

Lemma scan_content ls : forall st, no_marker ls = true ->
  scan ls st = mk_dec (cells st) (current_kind st) (current_lines st ++ ls).
Proof.
  induction ls as [|l ls IH]; intros st H.
  - cbn. rewrite app_nil_r. now destruct st.
  - cbn in H. apply andb_true_iff in H as [Hl Hls].
    apply negb_true_iff in Hl. unfold scan in *. cbn [fold_left].
    rewrite IH by exact Hls. rewrite scan_line_content by exact Hl.
    cbn [cells current_kind current_lines]. now rewrite <- app_assoc.
Qed.

Lemma flush_cell_prefix pre cs k buf :
  flush_cell (mk_dec (pre ++ cs) k buf) =
  let s := flush_cell (mk_dec cs k buf) in
  mk_dec (pre ++ cells s) (current_kind s) (current_lines s).
Proof.
  rewrite !flush_cell_eq. destruct k; cbn; [|reflexivity].
  now rewrite app_assoc.
Qed.

Lemma scan_line_prefix pre cs k buf l :
  scan_line (mk_dec (pre ++ cs) k buf) l =
  let s := scan_line (mk_dec cs k buf) l in
  mk_dec (pre ++ cells s) (current_kind s) (current_lines s).
Proof.
  destruct (is_marker l) eqn:M.
  - rewrite !scan_line_marker by exact M. now rewrite flush_cell_prefix.
  - now rewrite !scan_line_content by exact M.
Qed.

Lemma scan_prefix ls : forall pre cs k buf,
  scan ls (mk_dec (pre ++ cs) k buf) =
  let s := scan ls (mk_dec cs k buf) in
  mk_dec (pre ++ cells s) (current_kind s) (current_lines s).
Proof.
  induction ls as [|l ls IH]; intros pre cs k buf; [reflexivity|].
  unfold scan in *. cbn [fold_left]. rewrite scan_line_prefix. cbv zeta.
  destruct (scan_line (mk_dec cs k buf) l) as [cs' k' buf'].
  cbn [cells current_kind current_lines]. apply IH.
Qed.

Lemma decode_from_prefix ls pre k buf :
  decode_from (mk_dec pre k buf) ls = pre ++ decode_from (mk_dec [] k buf) ls.
Proof.
  unfold decode_from.
  rewrite <- (app_nil_r pre) at 1. rewrite scan_prefix. cbv zeta.
  destruct (scan ls (mk_dec [] k buf)) as [cs' k' buf'].
  cbn [cells current_kind current_lines].
  now rewrite flush_cell_prefix.
Qed.

Lemma decode_from_at_marker st rest : at_marker rest = true ->
  decode_from st rest = cells (flush_cell st) ++ decode_lines rest.
Proof.
  destruct rest as [|m r]; intros H.
  - cbn. now rewrite app_nil_r.
  - cbn in H. unfold decode_lines, decode_from, scan. cbn [fold_left].
    rewrite !scan_line_marker by exact H.
    apply (decode_from_prefix r (cells (flush_cell st))).
Qed.

Lemma decode_block st m content rest :
  is_marker m = true -> no_marker content = true ->
  decode_from st (m :: content ++ rest) =
  decode_from
    (mk_dec (cells (flush_cell st)) (Some (marker_kind m)) content) rest.
Proof.
  intros Hm Hc. unfold decode_from.
  change (m :: content ++ rest) with ([m] ++ content ++ rest).
  rewrite !scan_app. unfold scan at 3. cbn [fold_left].
  rewrite scan_line_marker by exact Hm. rewrite (scan_content content) by exact Hc.
  reflexivity.
Qed.

Lemma cell_marker_is_marker c : is_marker (cell_marker c) = true.
Proof. unfold cell_marker. now destruct (str_eqb _ _). Qed.

Lemma no_marker_app a b : no_marker (a ++ b) = no_marker a && no_marker b.
Proof. apply forallb_app. Qed.

Lemma is_marker_encoded l :
  is_marker (encoded_md_line l) = startswith (lit "%%") l.
Proof.
  unfold encoded_md_line. destruct (blank l) eqn:B; [|reflexivity].
  destruct l as [|c r]; [reflexivity|].
  rewrite blank_cons in B. apply andb_true_iff in B as [B _].
  change (lit "%%") with (@cons char 37%N [37%N]).
  rewrite startswith_cons. destruct (37 =? c)%N eqn:E; [|reflexivity].
  apply N.eqb_eq in E. subst c. discriminate.
Qed.

Lemma marker_safe_eq c : marker_safe c = no_marker (content_lines c).
Proof.
  unfold marker_safe, no_marker, content_lines.
  destruct (str_eqb (cell_type c) (lit "markdown")); [|reflexivity].
  rewrite forallb_map_comp.
  apply forallb_pointwise. intros l. now rewrite is_marker_encoded.
Qed.

Lemma marker_safe_content c :
  marker_safe c = true -> no_marker (content_lines c) = true.
Proof. now rewrite marker_safe_eq. Qed.

Lemma decode_cells cs : forall st rest,
  forallb supported cs = true -> forallb marker_safe cs = true ->
  at_marker rest = true ->
  decode_from st (List.concat (map cell_lines cs) ++ rest) =
  cells (flush_cell st) ++ map reread cs ++ decode_lines rest.
Proof.
  induction cs as [|c cs IH]; intros st rest Hs Hm Hr.
  - cbn. now apply decode_from_at_marker.
  - cbn in Hs, Hm. apply andb_true_iff in Hs as [Hc Hs].
    apply andb_true_iff in Hm as [Mc Hm].
    cbn [map List.concat]. unfold cell_lines at 1. rewrite Hc.
    cbn [app]. rewrite <- app_assoc.
    rewrite decode_block.
    + rewrite IH by assumption. rewrite flush_cell_eq.
      cbn [cells current_kind current_lines]. now rewrite <- app_assoc.
    + apply cell_marker_is_marker.
    + rewrite no_marker_app. now rewrite (marker_safe_content c Mc).
Qed.

End DecoderLemmas.

(** * Trailing whitespace and the last cell *)

Section Trailing.

Lemma startswith_app p a w :
  startswith p a = true -> startswith p (a ++ w) = true.
Proof.
  revert a. induction p as [|x p IH]; intros [|y a]; simpl; try congruence.
  intros H. apply andb_true_iff in H as [-> H]. now apply IH.
Qed.

Lemma is_marker_rstrip l : is_marker l = false -> is_marker (rstrip l) = false.
Proof.
  intros H. destruct (is_marker (rstrip l)) eqn:E; [|reflexivity].
  destruct (rstrip_split l) as [w [Hl _]].
  unfold is_marker in *. rewrite Hl, (startswith_app _ _ w E) in H.
  discriminate.
Qed.

Lemma no_linebreak_rstrip l :
  no_linebreak l = true -> no_linebreak (rstrip l) = true.
Proof.
  intros H. destruct (rstrip_split l) as [w [Hl _]].
  unfold no_linebreak in *. rewrite Hl, forallb_app in H.
  now apply andb_true_iff in H as [H _].
Qed.

Lemma rstrip_lines_forallb (P : str -> bool) :
  (forall l, P l = true -> P (rstrip l) = true) ->
  forall ls, forallb P ls = true -> forallb P (rstrip_lines ls) = true.
Proof.
  intros HP. induction ls as [|l ls IH]; intros H; [reflexivity|].
  cbn in H. apply andb_true_iff in H as [Hl Hls]. specialize (IH Hls).
  cbn [rstrip_lines]. destruct (rstrip_lines ls) as [|r rs].
  - destruct (blank l); [reflexivity|]. cbn. now rewrite HP.
  - cbn [forallb] in *. now rewrite Hl.
Qed.

Lemma rstrip_cons (c : char) (r : str) :
  is_space c = false -> rstrip (c :: r) = c :: rstrip r.
Proof.
  intros H. change (c :: r) with ([c] ++ r).
  destruct (blank r) eqn:B.
  - rewrite rstrip_app_blank by exact B. apply rstrip_nil in B. rewrite B.
    apply (rstrip_snoc [] c H).
  - apply rstrip_app. intros E. apply rstrip_nil in E. congruence.
Qed.

Lemma rstrip_cons_blank (c : char) (r : str) :
  is_space c = true -> blank r = true -> rstrip (c :: r) = [].
Proof. intros Hc Hr. apply rstrip_nil. now rewrite blank_cons, Hc. Qed.

Lemma rstrip_cons_keep (c : char) (r : str) :
  blank r = false -> rstrip (c :: r) = c :: rstrip r.
Proof.
  intros B. change (c :: r) with ([c] ++ r). apply rstrip_app.
  intros E. apply rstrip_nil in E. congruence.
Qed.

Lemma lstrip_blank s : blank s = true -> lstrip s = [].
Proof. apply lstrip_nil. Qed.

Lemma lstrip_rstrip s : lstrip (rstrip s) = rstrip (lstrip s).
Proof.
  unfold lstrip. induction s as [|c s IH]; [reflexivity|].
  cbn [dropwhile]. destruct (is_space c) eqn:Hc.
  - destruct (blank s) eqn:B.
    + rewrite rstrip_cons_blank by assumption.
      apply lstrip_blank in B. unfold lstrip in B. now rewrite B.
    + rewrite rstrip_cons_keep by exact B. cbn [dropwhile]. now rewrite Hc.
  - rewrite rstrip_cons by exact Hc. cbn [dropwhile]. now rewrite Hc.
Qed.

Lemma decoded_md_line_other (c : char) (r : str) :
  (35 =? c)%N = false -> decoded_md_line (c :: r) = c :: r.
Proof. unfold decoded_md_line. cbn. now intros ->. Qed.

Lemma decoded_md_line_space (r : str) :
  decoded_md_line (@cons char 35%N (@cons char 32%N r)) = r.
Proof. reflexivity. Qed.

Lemma decoded_md_line_bare (d : char) (r : str) :
  (32 =? d)%N = false ->
  decoded_md_line (@cons char 35%N (d :: r)) = lstrip (d :: r).
Proof. unfold decoded_md_line. cbn. now intros ->. Qed.

Lemma decoded_md_line_blank l : blank l = true -> decoded_md_line l = l.
Proof.
  destruct l as [|c r]; [reflexivity|]. intros B.
  apply decoded_md_line_other. rewrite blank_cons in B.
  apply andb_true_iff in B as [B _].
  destruct (35 =? c)%N eqn:E; [|reflexivity].
  apply N.eqb_eq in E. subst c. discriminate.
Qed.

Lemma rstrip_decoded l :
  rstrip (decoded_md_line (rstrip l)) = rstrip (decoded_md_line l).
Proof.
  destruct (blank l) eqn:B.
  { rewrite (decoded_md_line_blank l B).
    apply rstrip_nil in B. now rewrite B. }
  destruct l as [|c r]; [discriminate|].
  destruct (35 =? c)%N eqn:E.
  - apply N.eqb_eq in E. subst c.
    rewrite (rstrip_cons 35%N r) by reflexivity.
    destruct r as [|d r']; [reflexivity|].
    destruct (32 =? d)%N eqn:D.
    + apply N.eqb_eq in D. subst d. rewrite decoded_md_line_space.
      destruct (blank r') eqn:B'.
      * rewrite rstrip_cons_blank by auto. apply rstrip_nil in B'.
        now rewrite B'.
      * rewrite rstrip_cons_keep by exact B'.
        rewrite decoded_md_line_space. apply rstrip_idem.
    + rewrite (decoded_md_line_bare d r' D).
      destruct (blank (d :: r')) eqn:B'.
      * rewrite (lstrip_blank _ B'). apply rstrip_nil in B'. now rewrite B'.
      * assert (K : rstrip (d :: r') = d :: rstrip r').
        { destruct (blank r') eqn:Br.
          - apply rstrip_cons. rewrite blank_cons, Br, andb_true_r in B'.
            exact B'.
          - now apply rstrip_cons_keep. }
        rewrite K, (decoded_md_line_bare d _ D), <- K.
        rewrite lstrip_rstrip. apply rstrip_idem.
  - rewrite (decoded_md_line_other c r E).
    assert (K : exists x, rstrip (c :: r) = c :: x).
    { destruct (blank r) eqn:Br.
      - exists (rstrip r). apply rstrip_cons.
        rewrite blank_cons, Br, andb_true_r in B. exact B.
      - exists (rstrip r). now apply rstrip_cons_keep. }
    destruct K as [x K]. rewrite K, (decoded_md_line_other c x E), <- K.
    apply rstrip_idem.
Qed.

Lemma rstrip_lines_decoded ls :
  rstrip_lines (map decoded_md_line (rstrip_lines ls)) =
  rstrip_lines (map decoded_md_line ls).
Proof.
  induction ls as [|l ls IH]; [reflexivity|].
  cbn [rstrip_lines map]. destruct (rstrip_lines ls) as [|r rs] eqn:E.
  - assert (Hb : forallb blank ls = true) by now apply rstrip_lines_nil.
    assert (Hm : map decoded_md_line ls = ls).
    { clear -Hb. induction ls as [|x ls IH]; [reflexivity|].
      cbn in Hb. apply andb_true_iff in Hb as [Hx Hb].
      cbn [map]. now rewrite decoded_md_line_blank, IH. }
    rewrite Hm, E. pose proof (rstrip_decoded l) as R.
    destruct (blank l) eqn:B.
    + now rewrite (decoded_md_line_blank l B), B.
    + cbn [map rstrip_lines].
      assert (Hbl : blank (decoded_md_line (rstrip l))
                    = blank (decoded_md_line l)).
      { destruct (blank (decoded_md_line l)) eqn:B1.
        - apply rstrip_nil. rewrite R. now apply rstrip_nil.
        - destruct (blank (decoded_md_line (rstrip l))) eqn:B2; auto.
          apply rstrip_nil in B2. rewrite R in B2. apply rstrip_nil in B2.
          congruence. }
      rewrite Hbl. destruct (blank (decoded_md_line l)); [reflexivity|].
      now rewrite R.
  - cbn [map rstrip_lines] in *. now rewrite IH.
Qed.

Lemma finish_rstrip_lines k ls : finish k (rstrip_lines ls) = finish k ls.
Proof.
  destruct k; unfold finish; f_equal.
  - rewrite <- rstrip_unlines, rstrip_idem. symmetry. apply rstrip_join.
  - rewrite !rstrip_join, !rstrip_unlines.
    now rewrite rstrip_lines_decoded.
Qed.

End Trailing.

(** * Document to text to document *)

Section RoundTrip.

Variable repr : str -> str.

Lemma no_linebreak_encoded l :
  no_linebreak l = true -> no_linebreak (encoded_md_line l) = true.
Proof.
  unfold encoded_md_line. destruct (blank l); [reflexivity|].
  intros H. unfold no_linebreak. now rewrite forallb_app.
Qed.

Lemma content_lines_no_linebreak c :
  forallb no_linebreak (content_lines c) = true.
Proof.
  unfold content_lines. pose proof (splitlines_no_linebreak (source c)) as H.
  destruct (str_eqb _ _); [|exact H].
  rewrite forallb_map_comp. rewrite forallb_forall in *.
  intros l Hl. now apply no_linebreak_encoded, H.
Qed.

Lemma cell_marker_no_linebreak c : no_linebreak (cell_marker c) = true.
Proof. unfold cell_marker. now destruct (str_eqb _ _). Qed.

Lemma cell_lines_no_linebreak c : forallb no_linebreak (cell_lines c) = true.
Proof.
  unfold cell_lines. destruct (supported c); [|reflexivity].
  cbn [forallb]. rewrite cell_marker_no_linebreak, forallb_app.
  now rewrite content_lines_no_linebreak.
Qed.

Lemma concat_no_linebreak cs :
  forallb no_linebreak (List.concat (map cell_lines cs)) = true.
Proof.
  induction cs as [|c cs IH]; [reflexivity|].
  cbn [map List.concat]. now rewrite forallb_app, cell_lines_no_linebreak.
Qed.

Lemma rstrip_lines_marker c ls :
  rstrip_lines (cell_marker c :: ls) = cell_marker c :: rstrip_lines ls.
Proof.
  cbn [rstrip_lines]. destruct (rstrip_lines ls); [|reflexivity].
  unfold cell_marker. now destruct (str_eqb _ _).
Qed.

Lemma decode_lines_block m content :
  is_marker m = true -> no_marker content = true ->
  decode_lines (m :: content) = [finish (marker_kind m) content].
Proof.
  intros Hm Hc. unfold decode_lines.
  change (cells (flush_cell (scan (m :: content) (mk_dec [] None []))))
    with (decode_from (mk_dec [] None []) (m :: content)).
  rewrite <- (app_nil_r content) at 1.
  rewrite decode_block by assumption. unfold decode_from, scan.
  cbn [fold_left]. now rewrite flush_cell_eq.
Qed.

Lemma no_marker_rstrip_lines ls :
  no_marker ls = true -> no_marker (rstrip_lines ls) = true.
Proof.
  apply (rstrip_lines_forallb (fun l => negb (is_marker l))).
  intros l H. apply negb_true_iff in H. apply negb_true_iff.
  now apply is_marker_rstrip.
Qed.

(** Decoding the script of supported, marker-safe cells reads every cell
    back from its own block of lines. *)
Lemma decode_script_text cs :
  forallb supported cs = true -> forallb marker_safe cs = true ->
  percent_script_to_ipynb (script_text repr cs) = map reread cs.
Proof.
  intros Hs Hm. rewrite script_text_eq. unfold percent_script_to_ipynb.
  destruct cs as [|c cs0 _] using rev_ind; [reflexivity|].
  rewrite forallb_app in Hs, Hm. cbn [forallb] in Hs, Hm.
  rewrite andb_true_r in Hs, Hm.
  apply andb_true_iff in Hs as [Hs0 Hc]. apply andb_true_iff in Hm as [Hm0 Mc].
  apply marker_safe_content in Mc.
  assert (Hsep : no_marker (content_lines c ++ [empty]) = true).
  { rewrite no_marker_app, Mc. reflexivity. }
  rewrite map_app, concat_app. cbn [map List.concat]. rewrite app_nil_r.
  pose proof (concat_no_linebreak cs0) as NL0.
  pose proof (cell_lines_no_linebreak c) as NLc.
  assert (Ec : cell_lines c = cell_marker c :: content_lines c ++ [empty])
    by (unfold cell_lines; now rewrite Hc).
  rewrite Ec in *. clear Ec.
  set (X0 := List.concat (map cell_lines cs0)) in *.
  set (C := content_lines c ++ [empty]) in *.
  rewrite rstrip_join, rstrip_unlines.
  rewrite rstrip_lines_app
    by (rewrite rstrip_lines_marker; discriminate).
  rewrite rstrip_lines_marker.
  rewrite join_unlines by (destruct X0; discriminate).
  cbn [forallb] in NLc. apply andb_true_iff in NLc as [NLm NLC].
  rewrite splitlines_unlines.
  2:{ rewrite forallb_app, NL0. cbn [forallb]. rewrite NLm. cbn [andb].
      apply (rstrip_lines_forallb _ no_linebreak_rstrip _ NLC). }
  unfold decode_lines.
  change (cells (flush_cell (scan ?l ?s))) with (decode_from s l).
  unfold X0.
  rewrite (decode_cells cs0 _ (cell_marker c :: rstrip_lines C) Hs0 Hm0
             (cell_marker_is_marker c)).
  cbn [flush_cell current_kind cells app]. rewrite map_app. f_equal.
  rewrite decode_lines_block.
  - unfold reread. now rewrite finish_rstrip_lines.
  - apply cell_marker_is_marker.
  - now apply no_marker_rstrip_lines.
Qed.

Lemma decoded_encoded l :
  decoded_md_line (encoded_md_line l) = norm_line l.
Proof.
  unfold encoded_md_line, norm_line. now destruct (blank l).
Qed.

Lemma rstrip_join_sep ls :
  rstrip (join [LF] (ls ++ [empty])) = rstrip (unlines ls).
Proof.
  rewrite rstrip_join, unlines_app. apply rstrip_app_blank. reflexivity.
Qed.

Lemma reread_eq c : supported c = true ->
  reread c = new_cell (cell_type c) (reread_source c).
Proof.
  unfold supported, reread, reread_source, cell_marker, content_lines.
  destruct (str_eqb (cell_type c) (lit "markdown")) eqn:M.
  - intros _. apply str_eqb_eq in M. rewrite M.
    change (marker_kind (lit "# %% [markdown]")) with Markdown.
    unfold finish, new_markdown_cell. f_equal.
    rewrite map_app, map_map. cbn [map].
    change (decoded_md_line (empty)) with (empty).
    rewrite rstrip_join_sep. f_equal. f_equal.
    apply map_ext, decoded_encoded.
  - cbn [orb]. intros K. apply str_eqb_eq in K. rewrite K.
    change (marker_kind (lit "# %%")) with Code.
    unfold finish, new_code_cell. f_equal. apply rstrip_join_sep.
Qed.

Lemma blank_rstrip l : blank (rstrip l) = blank l.
Proof.
  destruct (blank l) eqn:B.
  - apply rstrip_nil in B. now rewrite B.
  - destruct (blank (rstrip l)) eqn:B'; [|reflexivity].
    apply rstrip_nil in B'. rewrite rstrip_idem in B'.
    apply rstrip_nil in B'. congruence.
Qed.

Lemma rstrip_lines_norm ls :
  rstrip_lines (map norm_line ls) = map norm_line (rstrip_lines ls).
Proof.
  induction ls as [|l ls IH]; [reflexivity|].
  cbn [map rstrip_lines]. rewrite IH.
  destruct (rstrip_lines ls) as [|r rs]; [|reflexivity].
  cbn [map]. unfold norm_line at 1 2. destruct (blank l) eqn:B.
  - reflexivity.
  - rewrite B. cbn [map]. unfold norm_line. now rewrite blank_rstrip, B.
Qed.

Lemma norm_line_id ls :
  forallb (fun l => implb (blank l) (is_empty l)) ls = true ->
  map norm_line ls = ls.
Proof.
  induction ls as [|l ls IH]; [reflexivity|]. intros H.
  cbn in H. apply andb_true_iff in H as [Hl Hls].
  cbn [map]. rewrite (IH Hls). f_equal.
  unfold norm_line. destruct (blank l); [|reflexivity].
  now destruct l.
Qed.

Lemma reread_source_plain c :
  plain_source c = true -> reread_source c = rstrip (source c).
Proof.
  unfold plain_source, reread_source. intros H.
  apply andb_true_iff in H as [Hlf H].
  destruct (str_eqb (cell_type c) (lit "markdown")).
  - cbn in H. unfold inner_blank_lines_empty in H.
    rewrite rstrip_unlines, rstrip_lines_norm, (norm_line_id _ H).
    rewrite <- rstrip_unlines. now apply rstrip_unlines_splitlines.
  - now apply rstrip_unlines_splitlines.
Qed.

End RoundTrip.

(** * Scanning from an open cell *)

Section Scanning.

Lemma scan_no_marker_init pre :
  no_marker pre = true ->
  scan pre (mk_dec [] None []) = mk_dec [] None pre.
Proof. intros H. now rewrite scan_content. Qed.

Lemma finish_cell_type k buf : cell_type (finish k buf) = kind_name k.
Proof. now destruct k. Qed.

Lemma decode_from_nil st : decode_from st [] = cells (flush_cell st).
Proof. reflexivity. Qed.

Lemma decode_from_cons st l rest :
  decode_from st (l :: rest) = decode_from (scan_line st l) rest.
Proof. reflexivity. Qed.

Lemma first_cell_open k rest : forall buf,
  exists src cs,
    decode_from (mk_dec [] (Some k) buf) rest
    = new_cell (kind_name k) src :: cs.
Proof.
  induction rest as [|l rest IH]; intros buf.
  - rewrite decode_from_nil, flush_cell_eq.
    cbn [current_kind cells current_lines app].
    exists (source (finish k buf)), []. now destruct k.
  - rewrite decode_from_cons. destruct (is_marker l) eqn:M.
    + rewrite scan_line_marker by exact M. rewrite flush_cell_eq.
      cbn [current_kind cells current_lines app].
      rewrite decode_from_prefix.
      exists (source (finish k buf)),
        (decode_from (mk_dec [] (Some (marker_kind l)) []) rest).
      now destruct k.
    + rewrite scan_line_content by exact M. apply IH.
Qed.

Lemma decode_from_no_kind rest : forall buf buf',
  decode_from (mk_dec [] None buf) rest
  = decode_from (mk_dec [] None buf') rest.
Proof.
  induction rest as [|l rest IH]; intros buf buf'; [reflexivity|].
  rewrite !decode_from_cons. destruct (is_marker l) eqn:M.
  - now rewrite !scan_line_marker by exact M.
  - rewrite !scan_line_content by exact M. apply IH.
Qed.

Lemma decode_lines_skip pre rest :
  no_marker pre = true -> decode_lines (pre ++ rest) = decode_lines rest.
Proof.
  intros Hp. unfold decode_lines. rewrite scan_app.
  rewrite scan_no_marker_init by exact Hp.
  apply (decode_from_no_kind rest pre []).
Qed.

Lemma splitlines_prefix pre text :
  forallb no_linebreak pre = true ->
  splitlines (unlines pre ++ text) = pre ++ splitlines text.
Proof.
  induction pre as [|l pre IH]; intros H; [reflexivity|].
  cbn in H. apply andb_true_iff in H as [Hl Hp].
  cbn [unlines app]. rewrite <- app_assoc. cbn [app].
  now rewrite splitlines_line, IH.
Qed.

Lemma rstrip_stripped s : stripped (rstrip s).
Proof. apply rstrip_last. Qed.

Lemma finish_stripped k buf : stripped (source (finish k buf)).
Proof. destruct k; apply rstrip_stripped. Qed.

Lemma flush_cell_stripped st :
  Forall (fun c => stripped (source c)) (cells st) ->
  Forall (fun c => stripped (source c)) (cells (flush_cell st)).
Proof.
  intros H. rewrite flush_cell_eq. destruct (current_kind st); [|exact H].
  cbn [cells]. apply Forall_app. split; [exact H|].
  constructor; [apply finish_stripped | constructor].
Qed.

Lemma scan_stripped ls : forall st,
  Forall (fun c => stripped (source c)) (cells st) ->
  Forall (fun c => stripped (source c)) (cells (scan ls st)).
Proof.
  induction ls as [|l ls IH]; intros st H; [exact H|].
  unfold scan in *. cbn [fold_left]. apply IH.
  destruct (is_marker l) eqn:M.
  - rewrite scan_line_marker by exact M. now apply flush_cell_stripped.
  - now rewrite scan_line_content by exact M.
Qed.

End Scanning.

(** * Text to document to text *)

Section Reencode.

Variable repr : str -> str.

Lemma ends_nonspace_snoc l :
  ends_nonspace l = true ->
  exists b c, l = b ++ [c] /\ is_space c = false.
Proof.
  induction l as [|x l IH]; [discriminate|].
  destruct l as [|y l].
  - cbn. intros H. apply negb_true_iff in H. now exists [], x.
  - intros H. destruct (IH H) as [b [c [E Hc]]].
    exists (x :: b), c. rewrite E. now split.
Qed.

Lemma ends_nonspace_rstrip l : ends_nonspace l = true -> rstrip l = l.
Proof.
  intros H. destruct (ends_nonspace_snoc l H) as [b [c [-> Hc]]].
  now apply rstrip_snoc.
Qed.

Lemma ends_nonspace_not_blank l : ends_nonspace l = true -> blank l = false.
Proof.
  intros H. destruct (ends_nonspace_snoc l H) as [b [c [-> Hc]]].
  rewrite blank_app, blank_cons, Hc. apply andb_false_r.
Qed.

Lemma startswith_blank p w :
  ends_nonspace p = true -> blank w = true -> startswith p w = false.
Proof.
  revert w. induction p as [|x p IH]; intros w Hp Hw; [discriminate|].
  destruct w as [|y w]; [reflexivity|].
  rewrite blank_cons in Hw. apply andb_true_iff in Hw as [Hy Hw].
  rewrite startswith_cons. destruct (x =? y)%N eqn:E; [|reflexivity].
  apply N.eqb_eq in E. subst y. cbn [andb].
  destruct p as [|z p].
  - cbn in Hp. now rewrite Hy in Hp.
  - now apply IH.
Qed.

Lemma startswith_app_blank p x w :
  ends_nonspace p = true -> blank w = true ->
  startswith p (x ++ w) = startswith p x.
Proof.
  revert p. induction x as [|y x IH]; intros p Hp Hw.
  - cbn [app]. rewrite (startswith_blank p w Hp Hw). now destruct p.
  - destruct p as [|q p]; [reflexivity|].
    cbn [app]. rewrite !startswith_cons. destruct p as [|z p].
    + reflexivity.
    + now rewrite IH.
Qed.

Lemma contains_blank p w :
  ends_nonspace p = true -> blank w = true -> contains p w = false.
Proof.
  intros Hp. induction w as [|y w IH]; intros Hw.
  - now destruct p.
  - cbn [contains]. rewrite (startswith_blank p (y :: w) Hp Hw).
    rewrite blank_cons in Hw. apply andb_true_iff in Hw as [_ Hw].
    now apply IH.
Qed.

Lemma contains_app_blank p x w :
  ends_nonspace p = true -> blank w = true ->
  contains p (x ++ w) = contains p x.
Proof.
  intros Hp Hw. induction x as [|y x IH].
  - cbn [app]. rewrite (contains_blank p w Hp Hw). now destruct p.
  - cbn [app contains].
    change (y :: x ++ w) with ((y :: x) ++ w).
    now rewrite startswith_app_blank, IH.
Qed.

Lemma marker_kind_rstrip l : marker_kind (rstrip l) = marker_kind l.
Proof.
  destruct (rstrip_split l) as [w [E W]]. unfold marker_kind.
  rewrite E at 2. now rewrite contains_app_blank.
Qed.

Lemma is_marker_rstrip_eq l : is_marker (rstrip l) = is_marker l.
Proof.
  destruct (rstrip_split l) as [w [E W]]. unfold is_marker.
  rewrite E at 2. now rewrite startswith_app_blank.
Qed.

Lemma blank_not_marker l : blank l = true -> is_marker l = false.
Proof.
  intros H. rewrite <- (app_nil_l l). unfold is_marker.
  now rewrite startswith_app_blank.
Qed.

Lemma blank_no_marker ls : forallb blank ls = true -> no_marker ls = true.
Proof.
  induction ls as [|l ls IH]; [reflexivity|]. intros H.
  cbn in H. apply andb_true_iff in H as [Hl Hls].
  unfold no_marker in *. cbn [forallb].
  now rewrite (blank_not_marker l Hl), IH.
Qed.

Lemma rstrip_lines_decomp ls :
  rstrip_lines ls = [] /\ forallb blank ls = true \/
  exists a l z, ls = a ++ l :: z /\ blank l = false /\
                forallb blank z = true /\ rstrip_lines ls = a ++ [rstrip l].
Proof.
  induction ls as [|x ls IH]; [now left|].
  cbn [rstrip_lines]. destruct IH as [[E B] | [a [l [z [E [Hl [Hz R]]]]]]].
  - rewrite E. destruct (blank x) eqn:Bx.
    + left. cbn. now rewrite Bx.
    + right. exists [], x, ls. now repeat split.
  - right. rewrite R. exists (x :: a), l, z. rewrite E.
    repeat split; auto. now destruct a.
Qed.

Lemma rstrip_lines_last a l z :
  blank l = false -> forallb blank z = true ->
  rstrip_lines (a ++ l :: z) = a ++ [rstrip l].
Proof.
  intros Hl Hz.
  assert (E : rstrip_lines (l :: z) = [rstrip l]).
  { cbn [rstrip_lines]. apply rstrip_lines_nil in Hz. now rewrite Hz, Hl. }
  rewrite rstrip_lines_app; rewrite E; [reflexivity | discriminate].
Qed.

(** Trailing whitespace of the input does not reach the decoded cells. *)
Lemma decode_lines_rstrip_lines ls :
  decode_lines (rstrip_lines ls) = decode_lines ls.
Proof.
  destruct (rstrip_lines_decomp ls) as [[E B] | [a [l [z [E [Hl [Hz R]]]]]]].
  - rewrite E. symmetry. rewrite <- (app_nil_r ls).
    apply decode_lines_skip, blank_no_marker, B.
  - rewrite R, E. unfold decode_lines. rewrite !scan_app.
    set (st := scan a _).
    change (cells (flush_cell (scan ?x ?s))) with (decode_from s x).
    rewrite !decode_from_cons, decode_from_nil.
    pose proof (blank_no_marker z Hz) as Nz.
    destruct (is_marker l) eqn:M.
    + rewrite !scan_line_marker by (now rewrite ?is_marker_rstrip_eq).
      unfold decode_from. rewrite scan_content by exact Nz.
      rewrite !flush_cell_eq. cbn [cells current_kind current_lines app].
      rewrite marker_kind_rstrip. do 2 f_equal.
      rewrite <- (finish_rstrip_lines _ z).
      apply rstrip_lines_nil in Hz. now rewrite Hz.
    + rewrite !scan_line_content by (now rewrite ?is_marker_rstrip_eq).
      unfold decode_from. rewrite scan_content by exact Nz.
      rewrite !flush_cell_eq. cbn [cells current_kind current_lines].
      destruct (current_kind st) as [k|]; [|reflexivity].
      cbn [cells]. do 2 f_equal. rewrite <- app_assoc. cbn [app].
      rewrite <- (finish_rstrip_lines k (current_lines st ++ l :: z)).
      rewrite <- (finish_rstrip_lines k (current_lines st ++ [rstrip l])).
      rewrite !rstrip_lines_last; auto.
      * now rewrite rstrip_idem.
      * now rewrite blank_rstrip.
Qed.

Lemma blocks_of_spec ls :
  ls = fst (blocks_of ls) ++ List.concat (map block_lines (snd (blocks_of ls)))
  /\ no_marker (fst (blocks_of ls)) = true
  /\ forallb (fun b => is_marker (fst b) && no_marker (snd b))
             (snd (blocks_of ls)) = true.
Proof.
  induction ls as [|l ls [E [Hp Hb]]]; [now repeat split|].
  cbn [blocks_of]. destruct (blocks_of ls) as [pre bs]. cbn [fst snd] in *.
  destruct (is_marker l) eqn:M; cbn [fst snd map List.concat app forallb].
  - unfold block_lines at 1. cbn [fst snd app].
    rewrite M, Hp, Hb. now rewrite <- E.
  - unfold no_marker in *. cbn [forallb]. rewrite M, Hp, Hb.
    now rewrite <- E.
Qed.

Lemma closed_body_spec ls body :
  closed_body ls = Some body -> ls = body ++ [empty].
Proof.
  revert body. induction ls as [|l ls IH]; intros body; [discriminate|].
  destruct ls as [|l' ls].
  - cbn. destruct l; [|discriminate]. now intros [= <-].
  - change (closed_body (l :: l' :: ls))
      with (option_map (cons l) (closed_body (l' :: ls))).
    destruct (closed_body (l' :: ls)) as [b|]; [|discriminate].
    intros [= <-]. cbn [app]. now rewrite <- (IH b eq_refl).
Qed.

Lemma clean_end_rstrip_lines body :
  clean_end body = true -> rstrip_lines body = body.
Proof.
  induction body as [|l body IH]; [reflexivity|].
  destruct body as [|l' body].
  - cbn. intros H.
    now rewrite (ends_nonspace_not_blank l H), (ends_nonspace_rstrip l H).
  - intros H.
    change (clean_end (l :: l' :: body)) with (clean_end (l' :: body)) in H.
    rewrite rstrip_lines_cons, (IH H). reflexivity.
Qed.

Lemma split_open_plain l : no_linebreak l = true -> split_open l = (l, []).
Proof.
  induction l as [|c l IH]; [reflexivity|]. intros H.
  cbn in H. apply andb_true_iff in H as [Hc Hl].
  apply negb_true_iff in Hc. cbn [split_open]. now rewrite Hc, (IH Hl).
Qed.

Lemma splitlines_join body :
  forallb no_linebreak body = true -> clean_end body = true ->
  splitlines (join [LF] body) = body.
Proof.
  induction body as [|l body IH]; [reflexivity|]. intros Hn Hc.
  cbn [forallb] in Hn. apply andb_true_iff in Hn as [Hl Hn].
  destruct body as [|l' body].
  - cbn [join]. cbn in Hc. destruct l as [|c l]; [discriminate|].
    now rewrite splitlines_cons, split_open_plain.
  - rewrite join_cons. cbn [app].
    rewrite splitlines_line by exact Hl. f_equal. now apply IH.
Qed.

Lemma forallb_skipn (f : char -> bool) n l :
  forallb f l = true -> forallb f (skipn n l) = true.
Proof.
  revert l. induction n as [|n IH]; intros [|c l] H; auto.
  cbn in H. apply andb_true_iff in H as [_ H]. now apply IH.
Qed.

Lemma forallb_dropwhile (f g : char -> bool) l :
  forallb f l = true -> forallb f (dropwhile g l) = true.
Proof.
  induction l as [|c l IH]; [reflexivity|]. intros H. cbn [dropwhile].
  destruct (g c); [|exact H].
  cbn in H. apply andb_true_iff in H as [_ H]. now apply IH.
Qed.

Lemma no_linebreak_decoded l :
  no_linebreak l = true -> no_linebreak (decoded_md_line l) = true.
Proof.
  intros H. unfold decoded_md_line, no_linebreak, lstrip in *.
  destruct (startswith (lit "# ") l); [now apply forallb_skipn|].
  destruct (startswith (lit "#") l); [|exact H].
  now apply forallb_dropwhile, forallb_skipn.
Qed.

Lemma startswith_hash_space l :
  startswith (lit "# ") l = true -> l = lit "# " ++ skipn 2 l.
Proof.
  destruct l as [|a [|b l]]; try discriminate.
  - change (lit "# ") with (@cons char 35%N [32%N]).
    rewrite startswith_cons. destruct (35 =? a)%N; discriminate.
  - change (lit "# ") with (@cons char 35%N [32%N]).
    rewrite !startswith_cons. intros H.
    apply andb_true_iff in H as [Ha H]. apply andb_true_iff in H as [Hb _].
    apply N.eqb_eq in Ha, Hb. now subst.
Qed.

Lemma md_content_line_cases l :
  md_content_line l = true ->
  l = lit "#" \/
  exists x, l = lit "# " ++ x /\ blank x = false.
Proof.
  unfold md_content_line. intros H. apply orb_true_iff in H as [H|H].
  - left. now apply str_eqb_eq.
  - right. apply andb_true_iff in H as [S B]. apply negb_true_iff in B.
    exists (skipn 2 l). split; [now apply startswith_hash_space | exact B].
Qed.

Lemma encoded_decoded l :
  md_content_line l = true -> encoded_md_line (decoded_md_line l) = l.
Proof.
  intros H. destruct (md_content_line_cases l H) as [-> | [x [-> B]]].
  - reflexivity.
  - change (decoded_md_line (lit "# " ++ x)) with x.
    unfold encoded_md_line. now rewrite B.
Qed.

Lemma map_encoded_decoded body :
  forallb md_content_line body = true ->
  map encoded_md_line (map decoded_md_line body) = body.
Proof.
  induction body as [|l body IH]; [reflexivity|]. intros H.
  cbn in H. apply andb_true_iff in H as [Hl H].
  cbn [map]. now rewrite encoded_decoded, IH.
Qed.

Lemma ends_nonspace_cons (c : char) (x : str) :
  x <> [] -> ends_nonspace (c :: x) = ends_nonspace x.
Proof. now destruct x. Qed.

Lemma clean_end_decoded body :
  forallb md_content_line body = true ->
  str_eqb (last body (empty)) (lit "#") = false ->
  clean_end body = true ->
  clean_end (map decoded_md_line body) = true.
Proof.
  induction body as [|l body IH]; [reflexivity|]. intros Hm Hl Hc.
  cbn [forallb] in Hm. apply andb_true_iff in Hm as [Ml Hm].
  destruct body as [|l' body].
  - cbn [map clean_end last] in *.
    destruct (md_content_line_cases l Ml) as [-> | [x [-> B]]];
      [discriminate|].
    change (decoded_md_line (lit "# " ++ x)) with x.
    change (lit "# " ++ x) with (@cons char 35%N (@cons char 32%N x)) in Hc.
    assert (Hx : x <> []) by (intros ->; discriminate).
    rewrite ends_nonspace_cons in Hc by discriminate.
    now rewrite ends_nonspace_cons in Hc by exact Hx.
  - change (clean_end (map decoded_md_line (l :: l' :: body)))
      with (clean_end (map decoded_md_line (l' :: body))).
    apply IH; auto.
Qed.

Lemma forallb_no_linebreak_decoded body :
  forallb no_linebreak body = true ->
  forallb no_linebreak (map decoded_md_line body) = true.
Proof.
  intros H. rewrite forallb_map_comp. rewrite forallb_forall in *.
  intros l Hl. now apply no_linebreak_decoded, H.
Qed.

(** Encoding the cell of a well-formed block gives the block back. *)
Lemma well_formed_block_lines b :
  well_formed_block b = true -> forallb no_linebreak (snd b) = true ->
  cell_lines (block_cell b) = block_lines b.
Proof.
  destruct b as [m ls]. unfold well_formed_block, block_cell, block_lines.
  cbn [fst snd]. destruct (closed_body ls) as [body|] eqn:C; [|discriminate].
  apply closed_body_spec in C. subst ls. intros H Hn.
  rewrite forallb_app in Hn. apply andb_true_iff in Hn as [Hn _].
  apply andb_true_iff in H as [Hc H].
  apply orb_true_iff in H as [H|H].
  - apply str_eqb_eq in H. subst m.
    change (marker_kind (lit "# %%")) with Code. unfold finish.
    rewrite rstrip_join_sep, rstrip_unlines, clean_end_rstrip_lines by exact Hc.
    unfold cell_lines, supported, cell_marker, content_lines.
    cbn [new_code_cell cell_type source].
    change (str_eqb (lit "code") (lit "markdown")) with false.
    change (str_eqb (lit "code") (lit "code")) with true. cbn [orb].
    now rewrite splitlines_join.
  - apply andb_true_iff in H as [H Hl]. apply andb_true_iff in H as [H Hm].
    apply negb_true_iff in Hl. apply str_eqb_eq in H. subst m.
    change (marker_kind (lit "# %% [markdown]")) with Markdown. unfold finish.
    rewrite map_app. cbn [map].
    change (decoded_md_line (empty)) with (empty).
    pose proof (clean_end_decoded body Hm Hl Hc) as Hd.
    rewrite rstrip_join_sep, rstrip_unlines, clean_end_rstrip_lines by exact Hd.
    unfold cell_lines, supported, cell_marker, content_lines.
    cbn [new_markdown_cell cell_type source].
    change (str_eqb (lit "markdown") (lit "markdown")) with true. cbn [orb].
    rewrite splitlines_join; auto using forallb_no_linebreak_decoded.
    now rewrite map_encoded_decoded.
Qed.

Lemma block_cell_supported b : supported (block_cell b) = true.
Proof.
  unfold block_cell. now destruct (marker_kind (fst b)).
Qed.

Lemma cell_lines_supported c :
  supported c = true ->
  cell_lines c = cell_marker c :: content_lines c ++ [empty].
Proof. unfold cell_lines. now intros ->. Qed.

Lemma reread_block_cell b :
  well_formed_block b = true -> forallb no_linebreak (snd b) = true ->
  reread (block_cell b) = block_cell b.
Proof.
  intros H Hn. pose proof (well_formed_block_lines b H Hn) as E.
  rewrite cell_lines_supported in E by apply block_cell_supported.
  unfold block_lines in E. injection E as Em Ec.
  unfold reread. rewrite Em, Ec. reflexivity.
Qed.

Lemma marker_safe_block_cell b :
  well_formed_block b = true -> forallb no_linebreak (snd b) = true ->
  no_marker (snd b) = true ->
  marker_safe (block_cell b) = true.
Proof.
  intros H Hn Hs. pose proof (well_formed_block_lines b H Hn) as E.
  rewrite cell_lines_supported in E by apply block_cell_supported.
  unfold block_lines in E. injection E as Em Ec.
  rewrite marker_safe_eq. rewrite <- Ec, no_marker_app in Hs.
  now apply andb_true_iff in Hs as [Hs _].
Qed.

Lemma normal_lines_no_linebreak text :
  forallb no_linebreak (normal_lines text) = true.
Proof.
  unfold normal_lines. rewrite forallb_app. cbn [forallb].
  rewrite (rstrip_lines_forallb _ no_linebreak_rstrip _
             (splitlines_no_linebreak text)).
  reflexivity.
Qed.

Lemma forallb_concat_blocks (f : str -> bool) bs :
  forallb f (List.concat (map block_lines bs)) = true ->
  forallb (fun b => forallb f (snd b)) bs = true.
Proof.
  induction bs as [|b bs IH]; [reflexivity|].
  cbn [map List.concat]. rewrite forallb_app. unfold block_lines at 1.
  cbn [forallb]. intros H. apply andb_true_iff in H as [H1 H2].
  apply andb_true_iff in H1 as [_ H1]. now rewrite H1, IH.
Qed.

Lemma splitlines_normalised text :
  lf_only text = true ->
  decode_lines (splitlines (rstrip text ++ [LF]))
  = decode_lines (rstrip_lines (splitlines text)).
Proof.
  intros Hlf. rewrite <- (rstrip_unlines_splitlines text Hlf).
  rewrite rstrip_unlines.
  pose proof (rstrip_lines_forallb _ no_linebreak_rstrip _
                (splitlines_no_linebreak text)) as Hn.
  destruct (rstrip_lines (splitlines text)) as [|r rs]; [reflexivity|].
  rewrite join_unlines by discriminate. now rewrite splitlines_unlines.
Qed.

(** The cells decoded from a well-formed text are those of its blocks, and
    their encoding is the text up to trailing whitespace. *)
Lemma well_formed_blocks text :
  well_formed text = true ->
  let cs := map block_cell (snd (blocks_of (normal_lines text))) in
  script_text repr cs = rstrip text ++ [LF] /\
  percent_script_to_ipynb text = cs.
Proof.
  unfold well_formed. intros H. apply andb_true_iff in H as [Hlf H].
  destruct (blocks_of_spec (normal_lines text)) as [E [_ Hb]].
  pose proof (normal_lines_no_linebreak text) as NL.
  destruct (blocks_of (normal_lines text)) as [pre bs]. cbn [fst snd] in *.
  destruct pre as [|p pre]; [|discriminate]. cbn [app] in E.
  rewrite E in NL. apply forallb_concat_blocks in NL.
  rewrite forallb_forall in H, Hb, NL.
  assert (EL : List.concat (map cell_lines (map block_cell bs))
               = normal_lines text).
  { rewrite E, map_map. f_equal. apply map_ext_in. intros b Hin.
    apply well_formed_block_lines; auto. }
  assert (ET : script_text repr (map block_cell bs) = rstrip text ++ [LF]).
  { rewrite script_text_eq, EL. unfold normal_lines.
    rewrite rstrip_join_sep, <- rstrip_join, <- rstrip_unlines, rstrip_idem.
    now rewrite rstrip_unlines_splitlines. }
  cbv zeta. split; [exact ET|].
  unfold percent_script_to_ipynb.
  rewrite <- decode_lines_rstrip_lines, <- splitlines_normalised by exact Hlf.
  rewrite <- ET.
  change (decode_lines (splitlines ?t)) with (percent_script_to_ipynb t).
  rewrite decode_script_text.
  - rewrite map_map. apply map_ext_in.
    intros b Hin. apply reread_block_cell; auto.
  - apply forallb_forall. intros c Hc. apply in_map_iff in Hc as [b [<- _]].
    apply block_cell_supported.
  - apply forallb_forall. intros c Hc. apply in_map_iff in Hc as [b [<- Hin]].
    apply marker_safe_block_cell; auto.
    specialize (Hb b Hin). now apply andb_true_iff in Hb as [_ Hb].
Qed.

End Reencode.

(** * Properties of the converter *)

(** C1, as stated, fails: a code cell with a non-empty source, one line of
    which begins with the marker token, is read back as two cells. *)
Lemma roundtrip_document_counterexample :
  let doc := [cell_with_marker_comment] in
  forallb supported doc = true /\
  forallb (fun c => negb (blank (source c))) doc = true /\
  view (percent_script_to_ipynb (script_text repr_plain doc)) <> view doc.
Proof. cbv zeta. repeat split. vm_compute. discriminate. Qed.

(** C1 (amended): for every Document of Code and Markdown cells in which no
    code line begins with the marker token and no markdown line with its
    percent signs, whose sources have the line feed as only line boundary
    and, in markdown, no whitespace-only line other than empty or trailing
    ones, decoding the encoder's output yields the same ordered sequence of
    (kind, source-with-trailing-whitespace-stripped) pairs. *)
Theorem roundtrip_document (repr : str -> str) (doc : list Cell) :
  forallb supported doc = true ->
  forallb marker_safe doc = true ->
  forallb plain_source doc = true ->
  view (percent_script_to_ipynb (script_text repr doc)) = view doc.
Proof.
  intros Hs Hm Hp. rewrite decode_script_text by assumption.
  unfold view. rewrite map_map. apply map_ext_in. intros c Hc.
  rewrite forallb_forall in Hs, Hp.
  rewrite (reread_eq c (Hs c Hc)). cbn [cell_type source].
  now rewrite (reread_source_plain c (Hp c Hc)), rstrip_idem.
Qed.

Lemma roundtrip_document_witness :
  forallb supported sample_document = true /\
  forallb marker_safe sample_document = true /\
  forallb plain_source sample_document = true /\
  view (percent_script_to_ipynb (script_text repr_plain sample_document))
  = view sample_document.
Proof.
  split; [reflexivity|]. split; [reflexivity|]. split; [reflexivity|].
  apply (roundtrip_document repr_plain sample_document); reflexivity.
Defined.

(** C2, as stated, fails: a text whose only marker token begins its line
    and that has no markdown line loses the content that follows the marker
    token, which is no whitespace. *)
Lemma reencode_counterexample :
  markers_at_line_start titled_script = true /\
  md_lines_prefixed titled_script = true /\
  script_text repr_plain (percent_script_to_ipynb titled_script)
  = lit "# %%" ++ [LF] ++ lit "x = 1" ++ [LF] /\
  rstrip (script_text repr_plain (percent_script_to_ipynb titled_script))
  <> rstrip titled_script /\
  map rstrip
    (splitlines (script_text repr_plain (percent_script_to_ipynb titled_script)))
  <> map rstrip (splitlines titled_script).
Proof. repeat split; vm_compute; discriminate. Qed.

(** C2 (amended): for every marked text in the format's own layout up to
    trailing whitespace (line feeds as only line boundary; a marker line
    first; every marker line exactly the marker token, alone or with the
    qualifier; every cell's content, ending in a character that is not
    whitespace, followed by exactly one empty line; every markdown content
    line the bare comment prefix or the prefix, a space and a non-blank
    text, the last one with text), encoding the decoded Document gives the
    text with its trailing whitespace replaced by one line feed. *)
Theorem reencode_well_formed (repr : str -> str) (text : str) :
  well_formed text = true ->
  fst (ipynb_to_percent_script repr (percent_script_to_ipynb text))
  = rstrip text ++ [LF].
Proof.
  intros H. destruct (well_formed_blocks repr text H) as [ET ED].
  rewrite ED. exact ET.
Qed.

Lemma reencode_well_formed_witness :
  well_formed sample_script = true /\
  fst (ipynb_to_percent_script repr_plain (percent_script_to_ipynb sample_script))
  = rstrip sample_script ++ [LF].
Proof.
  split; [reflexivity|].
  apply (reencode_well_formed repr_plain sample_script). reflexivity.
Defined.

(** C3, as stated, fails: a line that starts with the marker token and has
    no qualifier right after it still opens a Markdown cell when the
    qualifier occurs later in the line. *)
Lemma marker_qualifier_counterexample :
  is_marker late_qualifier_line = true /\
  startswith (lit "# %% [markdown]") late_qualifier_line = false /\
  startswith (lit "# %%[markdown]") late_qualifier_line = false /\
  current_kind (scan_line (mk_dec [] None []) late_qualifier_line)
  = Some Markdown /\
  percent_script_to_ipynb (late_qualifier_line ++ [LF] ++ lit "x = 1")
  = [new_markdown_cell (lit "x = 1")].
Proof. repeat split. Qed.

(** C3 (amended): for every input line that starts with the marker token,
    the decoder flushes the open cell and opens a Markdown cell when
    [[markdown]] occurs anywhere in the line and a Code cell otherwise, with
    an empty buffer; the line matters in no other way: replacing it by any
    marker line that opens the same kind leaves the decoded Document
    unchanged, and a cell opened by a line without [[markdown]] has for
    source the lines that follow it only. *)
Theorem marker_line_kind (l : str) :
  is_marker l = true ->
  (forall st,
     scan_line st l =
     mk_dec (cells (flush_cell st))
            (Some (if contains (lit "[markdown]") l then Markdown else Code))
            []) /\
  (forall l' pre post,
     is_marker l' = true ->
     contains (lit "[markdown]") l' = contains (lit "[markdown]") l ->
     decode_lines (pre ++ l' :: post) = decode_lines (pre ++ l :: post)) /\
  (forall content,
     contains (lit "[markdown]") l = false -> no_marker content = true ->
     decode_lines (l :: content)
     = [new_code_cell (rstrip (join [LF] content))]).
Proof.
  intros Hl. split; [|split].
  - intros st. now rewrite scan_line_marker.
  - intros l' pre post Hl' E. unfold decode_lines. rewrite !scan_app.
    set (st := scan pre _). unfold scan. cbn [fold_left].
    rewrite !scan_line_marker by assumption. unfold marker_kind.
    now rewrite E.
  - intros content E Hc. rewrite decode_lines_block by assumption.
    unfold marker_kind. now rewrite E.
Qed.

Lemma marker_line_kind_witness :
  is_marker (lit "# %% setup cell") = true /\
  decode_lines [lit "# %% setup cell"; lit "x = 1"; empty]
  = [new_code_cell (lit "x = 1")].
Proof.
  split; [reflexivity|].
  destruct (marker_line_kind (lit "# %% setup cell") eq_refl) as [_ [_ H]].
  exact (H [lit "x = 1"; empty] eq_refl eq_refl).
Defined.

(** C4: the encoder adds, for a markdown source line, the bare comment
    prefix when the line is empty or all whitespace and the prefix, a space
    and the line itself otherwise; a Markdown cell adds its marker line,
    these lines and the separator; the source "a\n\nb" gives the content
    lines "# a", "#", "# b" and is restored by the decoder. *)
Theorem markdown_line_encoding (repr : str -> str) :
  (forall acc line,
     markdown_line acc line =
     acc ++ [if forallb is_space line then lit "#" else lit "# " ++ line]) /\
  (forall st source,
     encode_cell repr st (new_markdown_cell source) =
     mk_enc (lines st ++ lit "# %% [markdown]"
               :: map (fun line => if forallb is_space line then lit "#"
                                   else lit "# " ++ line)
                      (splitlines source)
               ++ [empty])
            (printed st)) /\
  (let cell := new_markdown_cell (lit "a" ++ [LF; LF] ++ lit "b") in
   lines (encode_cells repr [cell])
   = [lit "# %% [markdown]"; lit "# a"; lit "#"; lit "# b"; empty] /\
   percent_script_to_ipynb (script_text repr [cell]) = [cell]).
Proof.
  split; [|split].
  - intros acc line. unfold markdown_line. rewrite strip_empty.
    unfold blank. now destruct (forallb is_space line).
  - intros st source. rewrite encode_cell_eq. cbn [cell_diag supported].
    rewrite app_nil_r. reflexivity.
  - cbv zeta. split.
    + now rewrite encode_cells_eq.
    + now rewrite script_text_eq.
Qed.

(** C5: a Code cell with the empty source adds its marker line and the
    blank separator line and nothing else; alone, it gives the text of the
    marker line and one line break; decoding that text yields a Code cell
    with the empty source. *)
Theorem empty_code_cell (repr : str -> str) :
  (forall st,
     encode_cell repr st (new_code_cell (empty)) =
     mk_enc (lines st ++ [lit "# %%"; empty]) (printed st)) /\
  script_text repr [new_code_cell (empty)] = lit "# %%" ++ [LF] /\
  percent_script_to_ipynb (script_text repr [new_code_cell (empty)])
  = [new_code_cell (empty)].
Proof.
  split; [|split].
  - intros st. rewrite encode_cell_eq. cbn. now rewrite app_nil_r.
  - now rewrite script_text_eq.
  - now rewrite script_text_eq.
Qed.

(** C6: when the lines before the first marker line are no marker lines,
    the decoder's result is that of the input without them, so that they
    reach no cell; its first cell is the one the first marker line opens;
    a flush with no open kind leaves the state as it is and adds no cell;
    without any marker line there is no cell at all. *)
Theorem pre_marker_content_discarded (pre : list str) :
  no_marker pre = true ->
  (forall rest, decode_lines (pre ++ rest) = decode_lines rest) /\
  (forall text, forallb no_linebreak pre = true ->
     percent_script_to_ipynb (unlines pre ++ text)
     = percent_script_to_ipynb text) /\
  (forall m rest, is_marker m = true ->
     exists src cs,
       decode_lines (pre ++ m :: rest)
       = new_cell (if contains (lit "[markdown]") m
                   then lit "markdown" else lit "code") src :: cs) /\
  (forall cs buf, flush_cell (mk_dec cs None buf) = mk_dec cs None buf) /\
  decode_lines pre = [].
Proof.
  intros Hp.
  assert (D : forall rest, decode_lines (pre ++ rest) = decode_lines rest)
    by (intros rest; now apply decode_lines_skip).
  split; [exact D|]. split; [|split; [|split]].
  - intros text Hn. unfold percent_script_to_ipynb.
    now rewrite splitlines_prefix, D.
  - intros m rest Hm. rewrite D.
    change (decode_lines (m :: rest))
      with (decode_from (mk_dec [] None []) (m :: rest)).
    rewrite decode_from_cons, scan_line_marker by exact Hm.
    cbn [flush_cell cells current_kind].
    destruct (first_cell_open (marker_kind m) rest []) as [src [cs E]].
    exists src, cs. rewrite E. unfold marker_kind.
    now destruct (contains _ m).
  - reflexivity.
  - rewrite <- (app_nil_r pre). now rewrite D.
Qed.

Lemma pre_marker_content_discarded_witness :
  no_marker [lit "#!/usr/bin/env python"; lit "import os"] = true /\
  percent_script_to_ipynb
    (unlines [lit "#!/usr/bin/env python"; lit "import os"]
     ++ lit "# %%" ++ [LF] ++ lit "x = 1" ++ [LF])
  = [new_code_cell (lit "x = 1")].
Proof.
  split; [reflexivity|].
  destruct (pre_marker_content_discarded
              [lit "#!/usr/bin/env python"; lit "import os"] eq_refl)
    as [_ [H _]].
  rewrite (H (lit "# %%" ++ [LF] ++ lit "x = 1" ++ [LF]) eq_refl).
  reflexivity.
Defined.

(** C7: for a cell whose kind is neither "markdown" nor "code" the encoder
    adds no line and prints one diagnostic that names the kind, then goes
    on: the text is that of the Document without the cell, and the
    diagnostics are those of the cells before it, this one, and those of
    the cells after it.  With the cell between two Code cells, the lines
    written are the first cell's marker line, content lines and separator,
    then the second cell's; the text is the first cell's lines, each with
    its line feed, then the second cell's marker line and content with
    trailing whitespace stripped and one line feed; the diagnostic is the
    only thing printed. *)
Theorem unsupported_cell_skipped (repr : str -> str) (cell : Cell) :
  str_eqb (cell_type cell) (lit "markdown") = false ->
  str_eqb (cell_type cell) (lit "code") = false ->
  (forall st,
     encode_cell repr st cell =
     mk_enc (lines st)
            (printed st ++
             [lit "Skipping unsupported cell type: " ++ repr (cell_type cell)])) /\
  (forall before after,
     fst (ipynb_to_percent_script repr (before ++ cell :: after))
     = fst (ipynb_to_percent_script repr (before ++ after)) /\
     snd (ipynb_to_percent_script repr (before ++ cell :: after))
     = snd (ipynb_to_percent_script repr before)
       ++ [lit "Skipping unsupported cell type: " ++ repr (cell_type cell)]
       ++ snd (ipynb_to_percent_script repr after)) /\
  (forall a b,
     lines (encode_cells repr [new_code_cell a; cell; new_code_cell b])
     = lit "# %%" :: splitlines a ++ [empty]
       ++ lit "# %%" :: splitlines b ++ [empty] /\
     ipynb_to_percent_script repr [new_code_cell a; cell; new_code_cell b]
     = (unlines (lit "# %%" :: splitlines a ++ [empty])
        ++ rstrip (unlines (lit "# %%" :: splitlines b)) ++ [LF],
        [lit "Skipping unsupported cell type: " ++ repr (cell_type cell)])).
Proof.
  intros Hm Hc.
  assert (U : supported cell = false)
    by (unfold supported; now rewrite Hm, Hc).
  assert (L : cell_lines cell = []) by (unfold cell_lines; now rewrite U).
  assert (D : cell_diag repr cell =
              [lit "Skipping unsupported cell type: " ++ repr (cell_type cell)])
    by (unfold cell_diag; now rewrite U).
  split; [|split].
  - intros st. rewrite encode_cell_eq. now rewrite L, D, app_nil_r.
  - intros before after. unfold ipynb_to_percent_script. cbn [fst snd].
    rewrite !encode_cells_eq. cbn [lines printed].
    rewrite !map_app, !concat_app. cbn [map List.concat].
    now rewrite L, D.
  - intros a b.
    assert (E : lines (encode_cells repr [new_code_cell a; cell; new_code_cell b])
                = (lit "# %%" :: splitlines a ++ [empty])
                  ++ (lit "# %%" :: splitlines b) ++ [empty]).
    { rewrite encode_cells_eq. cbn [lines map List.concat]. rewrite L.
      cbn [app]. rewrite app_nil_r.
      change (cell_lines (new_code_cell a))
        with (lit "# %%" :: splitlines a ++ [empty]).
      change (cell_lines (new_code_cell b))
        with (lit "# %%" :: splitlines b ++ [empty]).
      reflexivity. }
    split.
    + rewrite E. cbn [app]. now rewrite <- app_assoc.
    + unfold ipynb_to_percent_script. rewrite E. f_equal.
      * rewrite app_assoc, rstrip_join_sep, unlines_app, rstrip_app.
        -- now rewrite <- app_assoc.
        -- intros B. apply rstrip_nil in B. rewrite blank_unlines in B.
           discriminate.
      * rewrite encode_cells_eq. cbn [printed map List.concat].
        rewrite D. reflexivity.
Qed.

Lemma unsupported_cell_skipped_witness :
  str_eqb (lit "raw") (lit "markdown") = false /\
  str_eqb (lit "raw") (lit "code") = false /\
  ipynb_to_percent_script repr_plain raw_between_code
  = (lit "# %%" ++ [LF] ++ lit "a = 1" ++ [LF; LF]
     ++ lit "# %%" ++ [LF] ++ lit "b = 2" ++ [LF],
     [lit "Skipping unsupported cell type: 'raw'"]).
Proof.
  split; [reflexivity|]. split; [reflexivity|].
  destruct (unsupported_cell_skipped repr_plain
              (new_cell (lit "raw") (lit "zz")) eq_refl eq_refl) as [_ [_ H]].
  destruct (H (lit "a = 1") (lit "b = 2")) as [_ Ht].
  etransitivity; [exact Ht | reflexivity].
Defined.

(** C8: for every Document the encoder's text is a body followed by one
    line feed, where the body is empty or ends in a character that is
    neither whitespace nor a line boundary: one trailing line break, and no
    blank line or whitespace before it. *)
Theorem script_text_trailing (repr : str -> str) (doc : list Cell) :
  exists body,
    fst (ipynb_to_percent_script repr doc) = body ++ [LF] /\
    rstrip body = body /\
    (body = [] \/
     exists b c, body = b ++ [c] /\ is_space c = false
                 /\ is_linebreak c = false).
Proof.
  unfold ipynb_to_percent_script. cbn [fst].
  set (t := join [LF] (lines (encode_cells repr doc))).
  exists (rstrip t). split; [reflexivity|]. split; [apply rstrip_idem|].
  destruct (rstrip_last t) as [E | [b [c [E Hc]]]]; [now left|].
  right. exists b, c. repeat split; auto.
  destruct (is_linebreak c) eqn:Lc; [|reflexivity].
  apply is_linebreak_space in Lc. congruence.
Qed.

(** C9: flushing a Markdown cell turns each buffered line into one source
    line and joins them: a line that is the comment prefix, a space and a
    rest becomes the rest; a line that is the bare comment prefix and a rest
    not starting with a space becomes the rest without its leading
    whitespace; any other line is kept as it is.  The step is defined for
    every line. *)
Theorem flush_markdown_prefix (cs : list Cell) (buf : list str) :
  flush_cell (mk_dec cs (Some Markdown) buf) =
  mk_dec (cs ++ [new_markdown_cell
                   (rstrip (join [LF] (map decoded_md_line buf)))])
         None [] /\
  (forall acc l, md_line acc l = acc ++ [decoded_md_line l]) /\
  (forall rest, decoded_md_line (lit "# " ++ rest) = rest) /\
  (forall rest, startswith (lit " ") rest = false ->
     decoded_md_line (lit "#" ++ rest) = lstrip rest /\
     exists w, rest = w ++ lstrip rest /\ forallb is_space w = true /\
               forall c r, lstrip rest = c :: r -> is_space c = false) /\
  (forall l, startswith (lit "#") l = false -> decoded_md_line l = l).
Proof.
  split; [|split; [|split; [|split]]].
  - now rewrite flush_cell_eq.
  - intros acc l. apply (fold_md_line [l] acc).
  - reflexivity.
  - intros rest H. split.
    + destruct rest as [|d r]; [reflexivity|].
      apply decoded_md_line_bare.
      change (lit " ") with (@cons char 32%N []) in H.
      rewrite startswith_cons in H. now rewrite andb_true_r in H.
    + destruct (dropwhile_split is_space rest) as [w [E W]].
      exists w. split; [exact E|]. split; [exact W|].
      intros c r. apply dropwhile_head.
  - intros l H. unfold decoded_md_line. rewrite H.
    destruct l as [|c r]; [reflexivity|].
    change (lit "# ") with (@cons char 35%N [32%N]).
    change (lit "#") with (@cons char 35%N []) in H.
    rewrite startswith_cons in *. rewrite andb_true_r in H. now rewrite H.
Qed.

(** C10: for every input text, the source of every cell of the decoded
    Document is empty or ends in a character that is not whitespace. *)
Theorem decoded_source_stripped (text : str) (c : Cell) :
  In c (percent_script_to_ipynb text) ->
  source c = [] \/
  exists b ch, source c = b ++ [ch] /\ is_space ch = false.
Proof.
  intros H. unfold percent_script_to_ipynb, decode_lines in H.
  assert (F : Forall (fun c => stripped (source c))
                (cells (flush_cell (scan (splitlines text)
                                         (mk_dec [] None []))))).
  { apply flush_cell_stripped, scan_stripped. constructor. }
  rewrite Forall_forall in F. exact (F c H).
Qed.

Lemma decoded_source_stripped_witness :
  In (new_code_cell (lit "x = 1"))
     (percent_script_to_ipynb
        (lit "# %%" ++ [LF] ++ lit "x = 1   " ++ [LF; LF; LF])) /\
  (lit "x = 1" = [] \/
   exists b ch, lit "x = 1" = b ++ [ch] /\ is_space ch = false).
Proof.
  assert (H : In (new_code_cell (lit "x = 1"))
     (percent_script_to_ipynb
        (lit "# %%" ++ [LF] ++ lit "x = 1   " ++ [LF; LF; LF])))
    by (left; reflexivity).
  split; [exact H|]. exact (decoded_source_stripped _ _ H).
Defined.

(** * Further properties of the encoder *)

Section EncoderProperties.

Variable repr : str -> str.

Lemma lf_only_app a b : lf_only (a ++ b) = lf_only a && lf_only b.
Proof. apply forallb_app. Qed.

Lemma no_linebreak_lf_only l : no_linebreak l = true -> lf_only l = true.
Proof.
  unfold no_linebreak, lf_only. intros H. rewrite forallb_forall in *.
  intros c Hc. now rewrite (H c Hc).
Qed.

Lemma lf_only_unlines ls :
  forallb no_linebreak ls = true -> lf_only (unlines ls) = true.
Proof.
  induction ls as [|l ls IH]; [reflexivity|]. intros H.
  cbn [forallb] in H. apply andb_true_iff in H as [Hl Hls].
  cbn [unlines]. change (l ++ LF :: unlines ls) with (l ++ [LF] ++ unlines ls).
  rewrite !lf_only_app, (no_linebreak_lf_only l Hl), (IH Hls). reflexivity.
Qed.

Lemma lf_only_rstrip s : lf_only s = true -> lf_only (rstrip s) = true.
Proof.
  intros H. destruct (rstrip_split s) as [w [E _]].
  rewrite E, lf_only_app in H. now apply andb_true_iff in H as [H _].
Qed.

Lemma lf_only_rstrip_unlines ls :
  forallb no_linebreak ls = true -> lf_only (rstrip (unlines ls)) = true.
Proof. intros H. now apply lf_only_rstrip, lf_only_unlines. Qed.

Lemma cell_lines_unsupported c : supported c = false -> cell_lines c = [].
Proof. unfold cell_lines. now intros ->. Qed.

Lemma concat_cell_lines_filter doc :
  List.concat (map cell_lines (filter supported doc))
  = List.concat (map cell_lines doc).
Proof.
  induction doc as [|c doc IH]; [reflexivity|].
  cbn [filter map List.concat]. destruct (supported c) eqn:S.
  - cbn [map List.concat]. now rewrite IH.
  - now rewrite (cell_lines_unsupported c S), IH.
Qed.

Lemma concat_cell_diag doc :
  List.concat (map (cell_diag repr) doc)
  = map (skip_message repr) (filter (fun c => negb (supported c)) doc).
Proof.
  induction doc as [|c doc IH]; [reflexivity|].
  cbn [filter map List.concat]. unfold cell_diag at 1.
  destruct (supported c); cbn [negb app map]; now rewrite IH.
Qed.

Lemma cell_marker_not_blank c : blank (cell_marker c) = false.
Proof. unfold cell_marker. now destruct (str_eqb _ _). Qed.

Lemma forallb_blank_cell_lines doc :
  forallb blank (List.concat (map cell_lines doc))
  = forallb (fun c => negb (supported c)) doc.
Proof.
  induction doc as [|c doc IH]; [reflexivity|].
  cbn [map List.concat forallb]. rewrite forallb_app, IH.
  unfold cell_lines. destruct (supported c); [|reflexivity].
  cbn [forallb negb]. now rewrite cell_marker_not_blank.
Qed.

Lemma existsb_supported doc :
  existsb supported doc = negb (forallb (fun c => negb (supported c)) doc).
Proof.
  induction doc as [|c doc IH]; [reflexivity|].
  cbn [existsb forallb]. rewrite IH. now destruct (supported c).
Qed.

Lemma rstrip_join_lines_nil doc :
  rstrip (join [LF] (List.concat (map cell_lines doc))) = []
  <-> forallb (fun c => negb (supported c)) doc = true.
Proof.
  rewrite rstrip_join, rstrip_nil, blank_unlines.
  now rewrite forallb_blank_cell_lines.
Qed.

End EncoderProperties.

(** X1: the encoder's text has the line feed as its only line boundary,
    whatever boundaries the sources of the cells use. *)
Theorem script_text_lf_only (repr : str -> str) (doc : list Cell) :
  lf_only (fst (ipynb_to_percent_script repr doc)) = true.
Proof.
  change (fst (ipynb_to_percent_script repr doc)) with (script_text repr doc).
  rewrite script_text_eq, lf_only_app, rstrip_join.
  rewrite lf_only_rstrip_unlines by apply concat_no_linebreak.
  reflexivity.
Qed.

(** X2: the encoder's text is a single line break exactly when the
    Document has no Code or Markdown cell; the empty Document is one such. *)
Theorem script_text_empty_iff (repr : str -> str) (doc : list Cell) :
  fst (ipynb_to_percent_script repr doc) = [LF]
  <-> forallb (fun c => negb (str_eqb (cell_type c) (lit "markdown")
                            || str_eqb (cell_type c) (lit "code"))) doc = true.
Proof.
  change (fst (ipynb_to_percent_script repr doc)) with (script_text repr doc).
  rewrite script_text_eq.
  change (forallb _ doc) with (forallb (fun c => negb (supported c)) doc).
  rewrite <- rstrip_join_lines_nil. split.
  - intros H. now apply app_inv_tail with (l := [LF]).
  - now intros ->.
Qed.

(** X3: encoding a Document followed by another that has a Code or
    Markdown cell gives the lines of the first, each with its line feed,
    followed by the text of the second; the diagnostics are those of the
    first followed by those of the second. *)
Theorem script_text_app (repr : str -> str) (a b : list Cell) :
  existsb (fun c => str_eqb (cell_type c) (lit "markdown")
                    || str_eqb (cell_type c) (lit "code")) b = true ->
  fst (ipynb_to_percent_script repr (a ++ b))
  = unlines (lines (encode_cells repr a))
    ++ fst (ipynb_to_percent_script repr b) /\
  snd (ipynb_to_percent_script repr (a ++ b))
  = snd (ipynb_to_percent_script repr a)
    ++ snd (ipynb_to_percent_script repr b).
Proof.
  intros H. change (existsb _ b) with (existsb supported b) in H.
  rewrite existsb_supported in H. apply negb_true_iff in H.
  unfold ipynb_to_percent_script. cbn [fst snd].
  rewrite !encode_cells_eq. cbn [lines printed].
  rewrite !map_app, !concat_app. split; [|reflexivity].
  rewrite !rstrip_join, unlines_app, rstrip_app.
  - now rewrite <- app_assoc.
  - intros E. rewrite <- rstrip_join in E.
    apply rstrip_join_lines_nil in E. congruence.
Qed.

Lemma script_text_app_witness :
  existsb (fun c => str_eqb (cell_type c) (lit "markdown")
                    || str_eqb (cell_type c) (lit "code"))
          [new_code_cell (lit "y = 2")] = true /\
  fst (ipynb_to_percent_script repr_plain
         ([new_markdown_cell (lit "intro  ")] ++ [new_code_cell (lit "y = 2")]))
  = lit "# %% [markdown]" ++ [LF] ++ lit "# intro  " ++ [LF; LF]
    ++ lit "# %%" ++ [LF] ++ lit "y = 2" ++ [LF].
Proof.
  split; [reflexivity|].
  destruct (script_text_app repr_plain [new_markdown_cell (lit "intro  ")]
              [new_code_cell (lit "y = 2")] eq_refl) as [H _].
  rewrite H. reflexivity.
Defined.

(** X4: the encoder's text is that of the Document's Code and Markdown
    cells alone, and it prints one diagnostic for each other cell, in the
    Document's order. *)
Theorem unsupported_cells_filtered (repr : str -> str) (doc : list Cell) :
  fst (ipynb_to_percent_script repr doc)
  = fst (ipynb_to_percent_script repr (filter supported doc)) /\
  snd (ipynb_to_percent_script repr doc)
  = map (fun c => lit "Skipping unsupported cell type: " ++ repr (cell_type c))
        (filter (fun c => negb (supported c)) doc).
Proof.
  unfold ipynb_to_percent_script. cbn [fst snd].
  rewrite !encode_cells_eq. cbn [lines printed]. split.
  - now rewrite concat_cell_lines_filter.
  - apply concat_cell_diag.
Qed.

(** * Further properties of the decoder *)

Section DecoderProperties.

Lemma kind_name_marker m : kind_name (marker_kind m) = marker_cell_type m.
Proof.
  unfold marker_kind, marker_cell_type. now destruct (contains _ m).
Qed.

Lemma flush_cell_types st :
  map cell_type (cells (flush_cell st))
  = map cell_type (cells st)
    ++ match current_kind st with Some k => [kind_name k] | None => [] end.
Proof.
  rewrite flush_cell_eq. destruct (current_kind st) as [k|].
  - cbn [cells]. now rewrite map_app, <- (finish_cell_type k (current_lines st)).
  - now rewrite app_nil_r.
Qed.

Lemma decode_from_types ls : forall st,
  map cell_type (decode_from st ls)
  = map cell_type (cells (flush_cell st))
    ++ map marker_cell_type (filter is_marker ls).
Proof.
  induction ls as [|l ls IH]; intros st.
  - rewrite decode_from_nil. cbn. now rewrite app_nil_r.
  - rewrite decode_from_cons, IH. cbn [filter]. destruct (is_marker l) eqn:M.
    + rewrite scan_line_marker by exact M. rewrite flush_cell_types.
      cbn [cells current_kind map]. rewrite kind_name_marker.
      now rewrite <- app_assoc.
    + rewrite scan_line_content by exact M. rewrite !flush_cell_types.
      reflexivity.
Qed.

Lemma decode_lines_types ls :
  map cell_type (decode_lines ls) = map marker_cell_type (filter is_marker ls).
Proof. apply (decode_from_types ls (mk_dec [] None [])). Qed.

Lemma decode_lines_app a b :
  at_marker b = true -> decode_lines (a ++ b) = decode_lines a ++ decode_lines b.
Proof.
  intros H. unfold decode_lines at 1. rewrite scan_app.
  change (cells (flush_cell (scan b ?s))) with (decode_from s b).
  now rewrite decode_from_at_marker.
Qed.

(** [splitlines] of two texts, the first of which ends at a boundary. *)

Lemma ends_with_break_cons c s :
  s <> [] -> ends_with_break (c :: s) = ends_with_break s.
Proof.
  intros H. unfold ends_with_break. cbn [rev].
  destruct (rev s) as [|x r] eqn:E; [|reflexivity].
  apply (f_equal (@rev char)) in E. rewrite rev_involutive in E. now subst.
Qed.

Lemma after_break_app c rest t :
  startswith [LF] t = false ->
  after_break c (rest ++ t) = after_break c rest ++ t.
Proof.
  intros Ht. unfold after_break. destruct (c =? CR)%N; [|reflexivity].
  destruct rest as [|d r].
  - cbn [app]. destruct t as [|x t]; [reflexivity|].
    rewrite startswith_cons, andb_true_r in Ht.
    rewrite N.eqb_sym in Ht. now rewrite Ht.
  - cbn [app]. now destruct (d =? LF)%N.
Qed.

Lemma after_break_suffix c rest :
  exists p, rest = p ++ after_break c rest.
Proof.
  unfold after_break. destruct (c =? CR)%N; [|now exists []].
  destruct rest as [|d r]; [now exists []|].
  destruct (d =? LF)%N; [now exists [d] | now exists []].
Qed.

Lemma ends_with_break_suffix p s :
  s <> [] -> ends_with_break (p ++ s) = ends_with_break s.
Proof.
  intros H. induction p as [|c p IH]; [reflexivity|].
  cbn [app]. rewrite ends_with_break_cons; [exact IH|].
  now destruct p, s.
Qed.

Lemma splitlines_app_break n : forall s t,
  List.length s <= n -> ends_with_break s = true ->
  startswith [LF] t = false ->
  splitlines (s ++ t) = splitlines s ++ splitlines t.
Proof.
  induction n as [|n IH]; intros [|c rest] t Hn Hs Ht; try reflexivity;
    cbn [List.length] in Hn; try lia.
  cbn [app]. rewrite !splitlines_cons. cbn [split_open].
  destruct (is_linebreak c) eqn:Lc.
  - rewrite after_break_app by exact Ht. cbn [fst snd app]. f_equal.
    rewrite !split_open_tail.
    pose proof (after_break_length c rest) as Hl.
    destruct (after_break_suffix c rest) as [p Ep].
    apply IH; auto; [lia|].
    destruct (after_break c rest) as [|x r] eqn:Ea; [reflexivity|].
    rewrite Ep in Hs.
    rewrite ends_with_break_cons in Hs by (destruct p; discriminate).
    rewrite ends_with_break_suffix in Hs by discriminate. exact Hs.
  - destruct rest as [|d rest'].
    { unfold ends_with_break in Hs. cbn in Hs. congruence. }
    rewrite ends_with_break_cons in Hs by discriminate.
    assert (E : splitlines ((d :: rest') ++ t)
                = splitlines (d :: rest') ++ splitlines t)
      by (apply IH; auto; cbn [List.length] in *; lia).
    cbn [app] in E. rewrite !splitlines_cons in E.
    cbn [app].
    destruct (split_open (d :: rest' ++ t)) as [l1 ls1].
    destruct (split_open (d :: rest')) as [l2 ls2].
    cbn [fst snd app] in *. now injection E as -> ->.
Qed.

Lemma startswith_split_open p : forall t,
  no_linebreak p = true -> startswith p t = true ->
  startswith p (fst (split_open t)) = true.
Proof.
  induction p as [|x p IH]; intros t Hp H; [reflexivity|].
  destruct t as [|y t]; [discriminate|].
  rewrite startswith_cons in H. apply andb_true_iff in H as [Hxy H].
  apply N.eqb_eq in Hxy. subst y.
  unfold no_linebreak in Hp. cbn [forallb] in Hp.
  apply andb_true_iff in Hp as [Hx Hp]. apply negb_true_iff in Hx.
  cbn [split_open]. rewrite Hx.
  specialize (IH t Hp H). destruct (split_open t) as [l ls].
  cbn [fst] in *. now rewrite startswith_cons, N.eqb_refl, IH.
Qed.

Lemma at_marker_text t :
  startswith (lit "# %%") t = true -> at_marker (splitlines t) = true.
Proof.
  intros H. destruct t as [|c t]; [reflexivity|].
  rewrite splitlines_cons. cbn [at_marker]. unfold is_marker.
  now apply startswith_split_open.
Qed.

End DecoderProperties.

(** X5: the decoder makes one cell for each input line that starts with the
    marker token, in the order of these lines: a Markdown cell where the
    line holds [[markdown]], a Code cell elsewhere; no other line makes a
    cell. *)
Theorem decoded_cell_types (text : str) :
  map cell_type (percent_script_to_ipynb text)
  = map (fun m => if contains (lit "[markdown]") m
                  then lit "markdown" else lit "code")
        (filter (startswith (lit "# %%")) (splitlines text)).
Proof.
  unfold percent_script_to_ipynb.
  exact (decode_lines_types (splitlines text)).
Qed.

(** X6: when a text that is empty or ends at a line boundary is followed by
    a text that begins with the marker token, the decoded Document is the
    Document of the first text followed by that of the second. *)
Theorem decode_concatenation (s t : str) :
  ends_with_break s = true ->
  startswith (lit "# %%") t = true ->
  percent_script_to_ipynb (s ++ t)
  = percent_script_to_ipynb s ++ percent_script_to_ipynb t.
Proof.
  intros Hs Ht. unfold percent_script_to_ipynb.
  rewrite (splitlines_app_break (List.length s)); auto.
  - apply decode_lines_app. now apply at_marker_text.
  - destruct t as [|c t]; [reflexivity|].
    change (lit "# %%") with (@cons char 35%N (lit " %%")) in Ht.
    rewrite startswith_cons in Ht. apply andb_true_iff in Ht as [Hc _].
    apply N.eqb_eq in Hc. now subst c.
Qed.

Lemma decode_concatenation_witness :
  ends_with_break (lit "# %%" ++ [LF] ++ lit "x = 1" ++ [CR; LF]) = true /\
  startswith (lit "# %%") (lit "# %% [markdown]" ++ [LF] ++ lit "# done") = true /\
  percent_script_to_ipynb
    ((lit "# %%" ++ [LF] ++ lit "x = 1" ++ [CR; LF])
     ++ (lit "# %% [markdown]" ++ [LF] ++ lit "# done"))
  = [new_code_cell (lit "x = 1"); new_markdown_cell (lit "done")].
Proof.
  split; [reflexivity|]. split; [reflexivity|].
  rewrite (decode_concatenation
             (lit "# %%" ++ [LF] ++ lit "x = 1" ++ [CR; LF])
             (lit "# %% [markdown]" ++ [LF] ++ lit "# done") eq_refl eq_refl).
  reflexivity.
Defined.

(** * Whitespace after the text *)

Section TrailingText.

Lemma split_open_blank n : forall w,
  List.length w <= n -> blank w = true ->
  blank (fst (split_open w)) = true /\
  forallb blank (snd (split_open w)) = true.
Proof.
  induction n as [|n IH]; intros [|c rest] Hn Hw; cbn [List.length] in Hn;
    try lia; try (now split).
  rewrite blank_cons in Hw. apply andb_true_iff in Hw as [Hc Hr].
  cbn [split_open]. destruct (is_linebreak c).
  - cbn [fst snd]. split; [reflexivity|].
    pose proof (after_break_length c rest) as Hl.
    destruct (after_break_suffix c rest) as [p Ep].
    assert (Ha : blank (after_break c rest) = true).
    { rewrite Ep, blank_app in Hr. now apply andb_true_iff in Hr as [_ Hr]. }
    destruct (after_break c rest) as [|d t]; [reflexivity|].
    cbn [is_empty]. destruct (IH (d :: t)) as [H1 H2]; [lia | exact Ha |].
    destruct (split_open (d :: t)) as [l ls]. cbn [fst snd forallb] in *.
    now rewrite H1, H2.
  - destruct (IH rest) as [H1 H2]; [lia | exact Hr |].
    destruct (split_open rest) as [l ls]. cbn [fst snd] in *.
    split; [|exact H2]. now rewrite blank_cons, Hc, H1.
Qed.

Lemma rstrip_lines_splitlines_blank w :
  blank w = true -> rstrip_lines (splitlines w) = [].
Proof.
  intros H. destruct w as [|c w]; [reflexivity|].
  rewrite splitlines_cons. apply rstrip_lines_nil. cbn [forallb].
  destruct (split_open_blank (List.length (c :: w)) (c :: w)) as [H1 H2];
    auto.
  now rewrite H1, H2.
Qed.

Lemma rstrip_lines_first_char (c : char) l1 ls1 l2 ls2 :
  rstrip_lines (l1 :: ls1) = rstrip_lines (l2 :: ls2) ->
  rstrip_lines ((c :: l1) :: ls1) = rstrip_lines ((c :: l2) :: ls2).
Proof.
  rewrite !rstrip_lines_cons.
  destruct (rstrip_lines ls1) as [|r1 R1], (rstrip_lines ls2) as [|r2 R2].
  - rewrite !blank_cons.
    destruct (blank l1) eqn:B1, (blank l2) eqn:B2; try discriminate.
    + intros _. destruct (is_space c) eqn:Hc; [reflexivity|]. cbn [andb].
      rewrite !rstrip_cons by exact Hc.
      apply rstrip_nil in B1, B2. now rewrite B1, B2.
    + intros [= E]. rewrite !andb_false_r.
      now rewrite !rstrip_cons_keep, E.
  - destruct (blank l1); discriminate.
  - destruct (blank l2); discriminate.
  - now intros [= -> -> ->].
Qed.

Lemma ends_nonspace_tail (c : char) (s : str) :
  s <> [] -> ends_nonspace (c :: s) = ends_nonspace s.
Proof. now destruct s. Qed.

Lemma ends_nonspace_suffix p s :
  s <> [] -> ends_nonspace (p ++ s) = ends_nonspace s.
Proof.
  intros H. induction p as [|c p IH]; [reflexivity|].
  cbn [app]. rewrite ends_nonspace_tail; [exact IH|]. now destruct p, s.
Qed.

Lemma after_break_app_cons c d rest w :
  after_break c ((d :: rest) ++ w) = after_break c (d :: rest) ++ w.
Proof.
  unfold after_break. destruct (c =? CR)%N; [|reflexivity].
  cbn [app]. now destruct (d =? LF)%N.
Qed.

Lemma after_break_ends_nonspace c rest :
  ends_nonspace rest = true ->
  after_break c rest <> [] /\ ends_nonspace (after_break c rest) = true.
Proof.
  intros H. unfold after_break. destruct (c =? CR)%N.
  2:{ split; [now destruct rest | exact H]. }
  destruct rest as [|d r]; [discriminate|].
  destruct (d =? LF)%N eqn:E; [|split; [discriminate | exact H]].
  apply N.eqb_eq in E. subst d. destruct r as [|x r]; [discriminate|].
  split; [discriminate|]. now rewrite ends_nonspace_tail in H.
Qed.

Lemma rstrip_lines_split_app n : forall r w,
  List.length r <= n -> ends_nonspace r = true -> blank w = true ->
  rstrip_lines (fst (split_open (r ++ w)) :: snd (split_open (r ++ w)))
  = rstrip_lines (fst (split_open r) :: snd (split_open r)).
Proof.
  induction n as [|n IH]; intros [|c rest] w Hn Hr Hw;
    cbn [List.length] in Hn; try lia; try discriminate.
  cbn [app split_open]. destruct (is_linebreak c) eqn:Lc.
  - destruct rest as [|d rest'].
    { cbn in Hr. apply is_linebreak_space in Lc. now rewrite Lc in Hr. }
    rewrite ends_nonspace_tail in Hr by discriminate.
    rewrite after_break_app_cons.
    pose proof (after_break_length c (d :: rest')) as Hl.
    destruct (after_break_ends_nonspace c (d :: rest') Hr) as [Hne He].
    cbn [fst snd].
    destruct (after_break c (d :: rest')) as [|x t] eqn:Ea; [congruence|].
    cbn [app is_empty].
    assert (E := IH (x :: t) w).
    cbn [app] in E.
    destruct (split_open (x :: t ++ w)) as [l1 ls1].
    destruct (split_open (x :: t)) as [l2 ls2].
    cbn [fst snd] in E. rewrite !(rstrip_lines_cons []).
    rewrite E; auto. cbn [List.length] in *. lia.
  - destruct rest as [|d rest'].
    + cbn [app split_open fst snd].
      cbn in Hr. apply negb_true_iff in Hr.
      destruct (split_open_blank (List.length w) w) as [H1 H2]; auto.
      destruct (split_open w) as [l ls]. cbn [fst snd] in *.
      rewrite !rstrip_lines_cons. apply rstrip_lines_nil in H2.
      rewrite H2. cbn [rstrip_lines]. rewrite !blank_cons, Hr. cbn [andb].
      rewrite !rstrip_cons by exact Hr. apply rstrip_nil in H1.
      now rewrite H1.
    + rewrite ends_nonspace_tail in Hr by discriminate.
      assert (E := IH (d :: rest') w).
      cbn [app] in E. cbn [app].
      destruct (split_open (d :: rest' ++ w)) as [l1 ls1].
      destruct (split_open (d :: rest')) as [l2 ls2].
      cbn [fst snd] in *. apply rstrip_lines_first_char.
      apply E; auto. cbn [List.length] in *. lia.
Qed.

Lemma ends_nonspace_last b (c : char) :
  is_space c = false -> ends_nonspace (b ++ [c]) = true.
Proof.
  intros H. rewrite ends_nonspace_suffix by discriminate.
  cbn. now rewrite H.
Qed.

Lemma rstrip_lines_splitlines_rstrip s :
  rstrip_lines (splitlines s) = rstrip_lines (splitlines (rstrip s)).
Proof.
  destruct (rstrip_split s) as [w [E W]].
  destruct (rstrip_last s) as [R | [b [c [R Hc]]]].
  - rewrite R. apply rstrip_nil in R.
    now rewrite rstrip_lines_splitlines_blank.
  - rewrite E at 1. rewrite R.
    destruct b as [|x b]; cbn [app]; rewrite !splitlines_cons.
    + apply (rstrip_lines_split_app 1 [c] w); auto.
      apply (ends_nonspace_last [] c Hc).
    + apply (rstrip_lines_split_app (List.length (x :: b ++ [c]))
               (x :: b ++ [c]) w); auto.
      apply (ends_nonspace_last (x :: b) c Hc).
Qed.

Lemma decode_rstrip s :
  percent_script_to_ipynb (rstrip s) = percent_script_to_ipynb s.
Proof.
  unfold percent_script_to_ipynb.
  rewrite <- (decode_lines_rstrip_lines (splitlines s)).
  rewrite <- (decode_lines_rstrip_lines (splitlines (rstrip s))).
  now rewrite <- rstrip_lines_splitlines_rstrip.
Qed.

End TrailingText.

(** X7: whitespace after the text, blank lines included, does not change
    the decoded Document: two texts that are equal once their trailing
    whitespace is stripped decode alike; a text that is all whitespace
    decodes to the empty Document. *)
Theorem decode_trailing_whitespace (text w : str) :
  forallb is_space w = true ->
  percent_script_to_ipynb (text ++ w) = percent_script_to_ipynb text /\
  (forall text', rstrip text' = rstrip text ->
     percent_script_to_ipynb text' = percent_script_to_ipynb text) /\
  percent_script_to_ipynb w = [].
Proof.
  intros Hw. change (forallb is_space w) with (blank w) in Hw.
  assert (R : forall a b, rstrip a = rstrip b ->
                percent_script_to_ipynb a = percent_script_to_ipynb b).
  { intros a b E. rewrite <- (decode_rstrip a), <- (decode_rstrip b).
    now rewrite E. }
  split; [|split].
  - apply R. now apply rstrip_app_blank.
  - intros text'. apply R.
  - rewrite (R w []); [reflexivity|]. now apply rstrip_nil.
Qed.

Lemma decode_trailing_whitespace_witness :
  forallb is_space ([CR; LF] ++ lit "  " ++ [9; 12; 8232]%N) = true /\
  percent_script_to_ipynb
    ((lit "# %%" ++ [LF] ++ lit "x = 1")
     ++ ([CR; LF] ++ lit "  " ++ [9; 12; 8232]%N))
  = [new_code_cell (lit "x = 1")].
Proof.
  split; [reflexivity|].
  destruct (decode_trailing_whitespace (lit "# %%" ++ [LF] ++ lit "x = 1")
              ([CR; LF] ++ lit "  " ++ [9; 12; 8232]%N) eq_refl) as [H _].
  rewrite H. reflexivity.
Defined.

(** * Encoder and decoder together *)

Section Together.

Variable repr : str -> str.

Lemma clean_end_of_rstrip_lines ls : clean_end (rstrip_lines ls) = true.
Proof.
  induction ls as [|l ls IH]; [reflexivity|].
  rewrite rstrip_lines_cons. destruct (rstrip_lines ls) as [|r R].
  - destruct (blank l) eqn:B; [reflexivity|]. cbn [clean_end].
    destruct (rstrip_last l) as [E | [b [c [E Hc]]]].
    + apply rstrip_nil in E. congruence.
    + rewrite E. now apply ends_nonspace_last.
  - exact IH.
Qed.

(** Decoding the encoder's text is running the decoder on the encoder's
    lines. *)
Lemma decode_script_lines doc :
  percent_script_to_ipynb (script_text repr doc)
  = decode_lines (List.concat (map cell_lines doc)).
Proof.
  rewrite script_text_eq. unfold percent_script_to_ipynb.
  set (X := List.concat (map cell_lines doc)).
  rewrite <- (decode_lines_rstrip_lines X).
  rewrite rstrip_join, rstrip_unlines.
  pose proof (rstrip_lines_forallb _ no_linebreak_rstrip _
                (concat_no_linebreak doc)) as Hn.
  fold X in Hn. destruct (rstrip_lines X) as [|r R]; [reflexivity|].
  rewrite join_unlines by discriminate. now rewrite splitlines_unlines.
Qed.

Lemma filter_marker_cell_lines doc :
  List.length (filter is_marker (List.concat (map cell_lines doc)))
  = List.length (filter supported doc) + List.length (stray_markers doc).
Proof.
  unfold stray_markers. induction doc as [|c doc IH]; [reflexivity|].
  cbn [map List.concat filter]. rewrite filter_app, length_app, IH.
  unfold cell_lines. destruct (supported c); [|reflexivity].
  cbn [map List.concat filter List.length].
  rewrite cell_marker_is_marker, !filter_app, !length_app.
  cbn [filter List.length].
  change (is_marker empty) with false. cbv iota.
  rewrite app_nil_r. lia.
Qed.

Lemma decode_lines_length ls :
  List.length (decode_lines ls) = List.length (filter is_marker ls).
Proof.
  rewrite <- (length_map cell_type), decode_lines_types.
  apply length_map.
Qed.

(** The decoder, block by block. *)

Lemma decode_blocks bs : forall st,
  forallb (fun b => is_marker (fst b) && no_marker (snd b)) bs = true ->
  decode_from st (List.concat (map block_lines bs))
  = cells (flush_cell st) ++ map block_cell bs.
Proof.
  induction bs as [|b bs IH]; intros st H.
  - cbn. now rewrite app_nil_r.
  - cbn [forallb] in H. apply andb_true_iff in H as [Hb H].
    apply andb_true_iff in Hb as [Hm Hc].
    cbn [map List.concat]. unfold block_lines at 1. cbn [app].
    rewrite decode_block by assumption. rewrite IH by exact H.
    rewrite flush_cell_eq. cbn [cells current_kind current_lines map].
    unfold block_cell at 2. now rewrite <- app_assoc.
Qed.

Lemma decode_lines_blocks ls :
  decode_lines ls = map block_cell (snd (blocks_of ls)).
Proof.
  destruct (blocks_of_spec ls) as [E [Hp Hb]].
  rewrite E at 1. rewrite decode_lines_skip by exact Hp.
  apply (decode_blocks _ (mk_dec [] None []) Hb).
Qed.

Lemma blocks_of_no_linebreak ls :
  forallb no_linebreak ls = true ->
  forallb (fun b => forallb no_linebreak (snd b)) (snd (blocks_of ls)) = true.
Proof.
  intros H. destruct (blocks_of_spec ls) as [E _].
  rewrite E, forallb_app in H. apply andb_true_iff in H as [_ H].
  now apply forallb_concat_blocks.
Qed.

(** Cells that are given back as they are. *)

Lemma decode_encode_settled doc :
  Forall settled doc -> percent_script_to_ipynb (script_text repr doc) = doc.
Proof.
  intros H. rewrite Forall_forall in H. rewrite decode_script_text.
  - rewrite <- (map_id doc) at 2. apply map_ext_in.
    intros c Hc. apply (H c Hc).
  - apply forallb_forall. intros c Hc. apply (H c Hc).
  - apply forallb_forall. intros c Hc. apply (H c Hc).
Qed.

(** A cell whose source is [join] of lines in normal form. *)

Lemma settled_code ls :
  forallb no_linebreak ls = true -> no_marker ls = true ->
  settled (new_code_cell (rstrip (join [LF] ls))).
Proof.
  intros Hn Hm.
  pose proof (rstrip_lines_forallb _ no_linebreak_rstrip _ Hn) as Hn'.
  pose proof (no_marker_rstrip_lines ls Hm) as Hm'.
  pose proof (clean_end_of_rstrip_lines ls) as Hc.
  rewrite rstrip_join, rstrip_unlines.
  set (R := rstrip_lines ls) in *.
  assert (S : supported (new_code_cell (join [LF] R)) = true) by reflexivity.
  split; [exact S|]. split.
  - rewrite marker_safe_eq. unfold content_lines. cbn [cell_type source new_code_cell].
    change (str_eqb (lit "code") (lit "markdown")) with false. cbv iota.
    now rewrite splitlines_join.
  - rewrite (reread_eq _ S). unfold new_code_cell. f_equal.
    unfold reread_source. cbn [cell_type source].
    change (str_eqb (lit "code") (lit "markdown")) with false. cbv iota.
    rewrite splitlines_join by assumption.
    now rewrite rstrip_unlines, clean_end_rstrip_lines.
Qed.

Lemma norm_line_idem l : norm_line (norm_line l) = norm_line l.
Proof.
  unfold norm_line. destruct (blank l) eqn:B; [reflexivity|]. now rewrite B.
Qed.

Lemma startswith_nil_false (p : str) : p <> [] -> startswith p [] = false.
Proof. now destruct p. Qed.

Lemma settled_markdown ls :
  forallb no_linebreak ls = true ->
  forallb (fun l => negb (startswith (lit "%%") l)) ls = true ->
  forallb (fun l => implb (blank l) (is_empty l)) ls = true ->
  settled (new_markdown_cell (rstrip (join [LF] ls))).
Proof.
  intros Hn Hm Hb.
  pose proof (rstrip_lines_forallb _ no_linebreak_rstrip _ Hn) as Hn'.
  assert (Hm' : forallb (fun l => negb (startswith (lit "%%") l))
                        (rstrip_lines ls) = true).
  { apply (rstrip_lines_forallb (fun l => negb (startswith (lit "%%") l)));
      [|exact Hm].
    intros l H. apply negb_true_iff in H. apply negb_true_iff.
    destruct (startswith (lit "%%") (rstrip l)) eqn:E; [|reflexivity].
    destruct (rstrip_split l) as [w [El _]].
    rewrite El, (startswith_app _ _ w E) in H. discriminate. }
  assert (Hb' : forallb (fun l => implb (blank l) (is_empty l))
                        (rstrip_lines ls) = true).
  { apply (rstrip_lines_forallb (fun l => implb (blank l) (is_empty l)));
      [|exact Hb].
    intros l H. rewrite blank_rstrip. destruct (blank l) eqn:B; [|reflexivity].
    apply rstrip_nil in B. now rewrite B. }
  pose proof (clean_end_of_rstrip_lines ls) as Hc.
  rewrite rstrip_join, rstrip_unlines.
  set (R := rstrip_lines ls) in *.
  assert (S : supported (new_markdown_cell (join [LF] R)) = true)
    by reflexivity.
  split; [exact S|]. split.
  - unfold marker_safe. cbn [cell_type source new_markdown_cell].
    change (str_eqb (lit "markdown") (lit "markdown")) with true. cbv iota.
    now rewrite splitlines_join.
  - rewrite (reread_eq _ S). unfold new_markdown_cell. f_equal.
    unfold reread_source. cbn [cell_type source].
    change (str_eqb (lit "markdown") (lit "markdown")) with true. cbv iota.
    rewrite splitlines_join by assumption.
    rewrite (norm_line_id R Hb').
    now rewrite rstrip_unlines, clean_end_rstrip_lines.
Qed.

Lemma reread_settled c :
  supported c = true -> marker_safe c = true -> settled (reread c).
Proof.
  intros S M. rewrite (reread_eq c S). unfold reread_source.
  unfold marker_safe in M. unfold supported in S.
  pose proof (splitlines_no_linebreak (source c)) as Hn.
  destruct (str_eqb (cell_type c) (lit "markdown")) eqn:T.
  - apply str_eqb_eq in T. rewrite T.
    rewrite <- rstrip_join. apply settled_markdown.
    + rewrite forallb_map_comp. rewrite forallb_forall in *.
      intros l Hl. unfold norm_line.
      destruct (blank l); [reflexivity | now apply Hn].
    + rewrite forallb_map_comp. rewrite forallb_forall in *.
      intros l Hl. unfold norm_line.
      destruct (blank l); [reflexivity | now apply M].
    + rewrite forallb_map_comp. apply forallb_forall.
      intros l Hl. unfold norm_line.
      destruct (blank l) eqn:B; [reflexivity | now rewrite B].
  - cbn [orb] in S. apply str_eqb_eq in S. rewrite S.
    rewrite <- rstrip_join. now apply settled_code.
Qed.

Lemma decoded_md_proper l :
  is_marker l = false -> is_empty l || md_content_line l = true ->
  negb (startswith (lit "%%") (decoded_md_line l)) = true /\
  implb (blank (decoded_md_line l)) (is_empty (decoded_md_line l)) = true.
Proof.
  intros M H. apply orb_true_iff in H as [H|H].
  - destruct l; [now split | discriminate].
  - destruct (md_content_line_cases l H) as [-> | [x [-> B]]]; [now split|].
    change (decoded_md_line (lit "# " ++ x)) with x. rewrite B. split; auto.
    apply negb_true_iff. exact M.
Qed.

Lemma block_cell_settled b :
  is_marker (fst b) = true -> no_marker (snd b) = true ->
  forallb no_linebreak (snd b) = true ->
  implb (contains (lit "[markdown]") (fst b))
        (forallb (fun l => is_empty l || md_content_line l) (snd b)) = true ->
  settled (block_cell b).
Proof.
  destruct b as [m ls]. cbn [fst snd]. intros Hm Hc Hn Hp.
  unfold block_cell, marker_kind. cbn [fst snd].
  destruct (contains (lit "[markdown]") m); cbn [implb] in Hp.
  - unfold finish. unfold no_marker in Hc. rewrite forallb_forall in Hc, Hp.
    apply settled_markdown.
    + now apply forallb_no_linebreak_decoded.
    + rewrite forallb_map_comp. apply forallb_forall. intros l Hl.
      apply decoded_md_proper; auto.
      apply negb_true_iff. now apply Hc.
    + rewrite forallb_map_comp. apply forallb_forall. intros l Hl.
      apply decoded_md_proper; auto.
      apply negb_true_iff. now apply Hc.
  - now apply settled_code.
Qed.

Lemma finish_lf_only k ls :
  forallb no_linebreak ls = true -> lf_only (source (finish k ls)) = true.
Proof.
  intros H. destruct k; cbn [finish source new_code_cell new_markdown_cell];
    rewrite rstrip_join; apply lf_only_rstrip_unlines; auto.
  now apply forallb_no_linebreak_decoded.
Qed.

End Together.

(** X8: for every Document whose Code and Markdown cells are marker-safe,
    the Document obtained by encoding and decoding is given back unchanged
    by encoding and decoding it again: one round trip normalises, a second
    one changes nothing. *)
Theorem roundtrip_idempotent (repr : str -> str) (doc : list Cell) :
  forallb marker_safe (filter supported doc) = true ->
  percent_script_to_ipynb
    (script_text repr (percent_script_to_ipynb (script_text repr doc)))
  = percent_script_to_ipynb (script_text repr doc).
Proof.
  intros H.
  assert (E : script_text repr doc = script_text repr (filter supported doc))
    by (now rewrite !script_text_eq, concat_cell_lines_filter).
  rewrite E.
  rewrite (decode_script_text repr _ (forallb_filter supported doc) H).
  apply decode_encode_settled. apply Forall_forall.
  intros c' Hc'. apply in_map_iff in Hc' as [c [<- Hc]].
  rewrite forallb_forall in H. apply reread_settled.
  - now apply filter_In in Hc.
  - now apply H.
Qed.

Lemma roundtrip_idempotent_witness :
  forallb marker_safe (filter supported untidy_document) = true /\
  percent_script_to_ipynb (script_text repr_plain untidy_document)
  = [ new_markdown_cell (lit "Intro  " ++ [LF; LF] ++ lit "more");
      new_code_cell (lit "x = 1  " ++ [LF] ++ lit "y = 2") ] /\
  percent_script_to_ipynb
    (script_text repr_plain
       (percent_script_to_ipynb (script_text repr_plain untidy_document)))
  = percent_script_to_ipynb (script_text repr_plain untidy_document).
Proof.
  split; [reflexivity|]. split; [reflexivity|].
  apply (roundtrip_idempotent repr_plain untidy_document). reflexivity.
Defined.

(** X9: for every text in which each line below a markdown marker line is
    empty, the bare comment prefix, or the prefix, a space and a non-blank
    text (any text without markdown marker lines is one), the decoded
    Document is given back unchanged by encoding and decoding it, whatever
    comes before the first marker line, follows a marker token or separates
    the cells. *)
Theorem decode_stable (repr : str -> str) (text : str) :
  md_blocks_proper text = true ->
  percent_script_to_ipynb (script_text repr (percent_script_to_ipynb text))
  = percent_script_to_ipynb text.
Proof.
  unfold md_blocks_proper. intros H. apply decode_encode_settled.
  unfold percent_script_to_ipynb. rewrite decode_lines_blocks.
  destruct (blocks_of_spec (splitlines text)) as [_ [_ Hb]].
  pose proof (blocks_of_no_linebreak _ (splitlines_no_linebreak text)) as Hn.
  rewrite forallb_forall in H, Hb, Hn.
  apply Forall_forall. intros c Hc. apply in_map_iff in Hc as [b [<- Hin]].
  specialize (Hb b Hin). apply andb_true_iff in Hb as [Hm Hc].
  apply block_cell_settled; auto.
Qed.

Lemma decode_stable_witness :
  md_blocks_proper untidy_script = true /\
  percent_script_to_ipynb untidy_script
  = [ new_markdown_cell (lit "Title");
      new_code_cell (lit "x = 1   " ++ [LF] ++ lit "#%% y") ] /\
  percent_script_to_ipynb
    (script_text repr_plain (percent_script_to_ipynb untidy_script))
  = percent_script_to_ipynb untidy_script.
Proof.
  split; [reflexivity|]. split; [reflexivity|].
  apply (decode_stable repr_plain untidy_script). reflexivity.
Defined.

(** X10: decoding the encoder's text of any Document yields as many cells
    as the Document has Code and Markdown cells, plus one for each of their
    content lines that begins with the marker token: cells are never lost
    or merged, and they are split exactly at such lines. *)
Theorem roundtrip_cell_count (repr : str -> str) (doc : list Cell) :
  List.length (percent_script_to_ipynb (script_text repr doc))
  = List.length (filter supported doc) + List.length (stray_markers doc) /\
  List.length (filter supported doc)
  <= List.length (percent_script_to_ipynb (script_text repr doc)).
Proof.
  assert (E : List.length (percent_script_to_ipynb (script_text repr doc))
              = List.length (filter supported doc)
                + List.length (stray_markers doc)).
  { rewrite decode_script_lines, decode_lines_length.
    apply filter_marker_cell_lines. }
  split; [exact E | lia].
Qed.

(** X11: the source of every decoded cell has the line feed as its only
    line boundary, whatever boundaries the text uses. *)
Theorem decoded_source_lf_only (text : str) (c : Cell) :
  In c (percent_script_to_ipynb text) -> lf_only (source c) = true.
Proof.
  unfold percent_script_to_ipynb. rewrite decode_lines_blocks. intros H.
  apply in_map_iff in H as [b [<- Hin]].
  pose proof (blocks_of_no_linebreak _ (splitlines_no_linebreak text)) as Hn.
  rewrite forallb_forall in Hn. unfold block_cell.
  apply finish_lf_only. now apply Hn.
Qed.

Lemma decoded_source_lf_only_witness :
  In (new_code_cell (lit "x = 1" ++ [LF] ++ lit "y = 2"))
     (percent_script_to_ipynb
        (lit "# %%" ++ [CR; LF] ++ lit "x = 1" ++ [8232]%N ++ lit "y = 2")) /\
  lf_only (lit "x = 1" ++ [LF] ++ lit "y = 2") = true.
Proof.
  assert (H : In (new_code_cell (lit "x = 1" ++ [LF] ++ lit "y = 2"))
     (percent_script_to_ipynb
        (lit "# %%" ++ [CR; LF] ++ lit "x = 1" ++ [8232]%N ++ lit "y = 2")))
    by (left; reflexivity).
  split; [exact H|]. exact (decoded_source_lf_only _ _ H).
Defined.

(** X12: a cell depends on its own block of lines only: for a marker line
    followed by lines that are no marker lines, up to the end of the input
    or the next marker line, the decoded Document is that of the lines
    before, then the cell made of the block (Markdown with the prefixes
    stripped when the marker line holds [[markdown]], Code otherwise, the
    lines joined and trailing whitespace stripped), then that of the lines
    after. *)
Theorem decoded_cell_local (before : list str) (m : str)
        (content after : list str) :
  is_marker m = true -> no_marker content = true -> at_marker after = true ->
  decode_lines (before ++ m :: content ++ after)
  = decode_lines before
    ++ (if contains (lit "[markdown]") m
        then new_markdown_cell
               (rstrip (join [LF] (map decoded_md_line content)))
        else new_code_cell (rstrip (join [LF] content)))
    :: decode_lines after.
Proof.
  intros Hm Hc Ha. rewrite decode_lines_app by exact Hm. f_equal.
  change (decode_lines (m :: content ++ after))
    with (decode_from (mk_dec [] None []) (m :: content ++ after)).
  rewrite decode_block by assumption.
  rewrite decode_from_at_marker by exact Ha.
  rewrite flush_cell_eq. cbn [cells current_kind current_lines flush_cell app].
  unfold finish, marker_kind. now destruct (contains _ m).
Qed.

Lemma decoded_cell_local_witness :
  is_marker (lit "# %% [markdown]") = true /\
  no_marker [lit "# a"; lit "b"; empty] = true /\
  at_marker [lit "# %%"; lit "y"] = true /\
  decode_lines ([lit "# %%"; lit "x"] ++ lit "# %% [markdown]"
                  :: [lit "# a"; lit "b"; empty] ++ [lit "# %%"; lit "y"])
  = [new_code_cell (lit "x"); new_markdown_cell (lit "a" ++ [LF] ++ lit "b");
     new_code_cell (lit "y")].
Proof.
  split; [reflexivity|]. split; [reflexivity|]. split; [reflexivity|].
  rewrite (decoded_cell_local [lit "# %%"; lit "x"] (lit "# %% [markdown]")
             [lit "# a"; lit "b"; empty] [lit "# %%"; lit "y"]
             eq_refl eq_refl eq_refl).
  reflexivity.
Defined.

Section CellByCell.

Lemma at_marker_cell_lines doc :
  at_marker (List.concat (map cell_lines doc)) = true.
Proof.
  induction doc as [|c doc IH]; [reflexivity|].
  cbn [map List.concat]. unfold cell_lines at 1.
  destruct (supported c); [|exact IH].
  cbn [app at_marker]. apply cell_marker_is_marker.
Qed.

End CellByCell.

(** X13: for every Document whose Code and Markdown cells are marker-safe,
    decoding the encoder's text yields these cells in their order, each
    with its kind and with its source normalised: the lines of the source
    joined by line feeds, whitespace-only markdown lines emptied, trailing
    whitespace stripped; the other cells are left out. *)
Theorem roundtrip_normal_form (repr : str -> str) (doc : list Cell) :
  forallb marker_safe (filter supported doc) = true ->
  percent_script_to_ipynb (script_text repr doc)
  = map (fun c => new_cell (cell_type c) (reread_source c))
        (filter supported doc).
Proof.
  intros H.
  assert (E : script_text repr doc = script_text repr (filter supported doc))
    by (now rewrite !script_text_eq, concat_cell_lines_filter).
  rewrite E.
  rewrite (decode_script_text repr _ (forallb_filter supported doc) H).
  apply map_ext_in. intros c Hc. apply reread_eq.
  now apply filter_In in Hc.
Qed.

Lemma roundtrip_normal_form_witness :
  forallb marker_safe (filter supported untidy_document) = true /\
  percent_script_to_ipynb (script_text repr_plain untidy_document)
  = map (fun c => new_cell (cell_type c) (reread_source c))
        (filter supported untidy_document).
Proof.
  split; [reflexivity|].
  apply (roundtrip_normal_form repr_plain untidy_document). reflexivity.
Defined.

(** X14: encoding and decoding acts cell by cell: the round trip of two
    Documents put one after the other is the round trip of the first
    followed by that of the second, for all Documents. *)
Theorem roundtrip_app (repr : str -> str) (a b : list Cell) :
  percent_script_to_ipynb (script_text repr (a ++ b))
  = percent_script_to_ipynb (script_text repr a)
    ++ percent_script_to_ipynb (script_text repr b).
Proof.
  rewrite !decode_script_lines, map_app, concat_app.
  apply decode_lines_app, at_marker_cell_lines.
Qed.
